(** * A signaling relay for peer-to-peer connection setup

    Shallow embedding of the relay's message codec ([src/messages.ts]) and of
    the server's registry, room directory, dispatcher and abuse guard (the
    server module), followed by the properties of the specification that
    were checked against them.

    Conventions.
    - A JS [Map] is a [gmap]; [get] is lookup, [set] is insert, [has] is
      [is_Some] of the lookup.  The iteration order of a [Map] only shows in
      log lines, which are not modelled.
    - A JS array is a [list]; [indexOf] and [splice] are written out with
      their behaviour on negative and out-of-range positions.
    - JS numbers that the server computes with (counts, timestamps) are [Z].
    - [crypto.randomUUID()] and [Math.random()] are inputs of the operation
      that calls them.
    - What the server writes to a socket ([send], [close]) is collected in a
      list of outputs. *)

From Stdlib Require Import ZArith Sorted.
From stdpp Require Import base option list strings pretty gmap fin_maps.

Local Open Scope Z_scope.

(* ===================================================================== *)
(** * Messages ([src/messages.ts], [src/exceptions.ts])                   *)
(* ===================================================================== *)

Module Messages.

(** [src/exceptions.ts], and the two built-in errors the code can raise:
    [SyntaxError] from [JSON.parse] and [TypeError] from a method call on
    [undefined]. *)
Inductive Exception :=
  | InvalidMessageException (message : string)
  | ParseError (message : string)
  | SyntaxError
  | TypeError (message : string).

Module SignalingMessageType.
Inductive t :=
  | Offer | Answer | IceCandidate | ClientId | PeerList
  | CreateRoom | JoinRoom | LeaveRoom | Error | JoinOrCreate.

(** The numeric value of each enum member. *)
Definition value (ty : t) : Z :=
  match ty with
  | Offer => 0 | Answer => 1 | IceCandidate => 2 | ClientId => 3
  | PeerList => 4 | CreateRoom => 5 | JoinRoom => 6 | LeaveRoom => 7
  | Error => 8 | JoinOrCreate => 9
  end.
End SignalingMessageType.
Import SignalingMessageType.

(** JSON values: the negotiation payloads ([RTCSessionDescriptionInit],
    [RTCIceCandidate]) are opaque to the relay and are carried as such. *)
#[warnings="-register-all"]
Inductive json :=
  | JNull
  | JBool (b : bool)
  | JNum (n : Z)
  | JStr (s : string)
  | JArr (items : list json)
  | JObj (fields : list (string * json)).

(** [x == null] on a field that may be absent ([undefined]) or [null]. *)
Definition json_is_null (x : option json) : bool :=
  match x with
  | None | Some JNull => true
  | Some _ => false
  end.

(** [interface SignalingContent].  The optional fields are options; so is
    [type], which [fromJson] tests against [null] although the interface
    declares it required.  A field that is [null] on the wire reads as an
    absent one, except in the payloads, where [null] is a JSON value. *)
Module SignalingContent.
Record t := mk {
  type : option Z;
  targetId : string;
  senderId : string;
  offer : option json;
  offerTargetId : option string;
  answer : option json;
  iceCandidate : option json;
  clientId : option string;
  peerList : option (list string);
  roomCode : option string;
  roomId : option string;
  errorMessage : option string;
}.
End SignalingContent.
Abbreviation SignalingContent := SignalingContent.t.

(** The class hierarchy under [SignalingMessage], one constructor per
    subclass, with the parameters of that subclass's constructor. *)
Inductive SignalingMessage :=
  | SignalingOffer (targetId senderId : string) (offer : json)
  | SignalingAnswer (targetId senderId : string) (answer : json)
  | SignalingIceCandidate (targetId senderId : string) (candidate : json)
  | SignalingClientId (targetId senderId id : string)
  | SignalingPeerList (targetId senderId : string) (peerList : list string)
                      (roomCode roomId : string)
  | SignalingCreateRoom (senderId roomCode : string)
  | SignalingJoinRoom (senderId roomCode : string)
  | SignalingJoinOrCreateRoom (senderId roomId : string)
  | SignalingLeaveRoom (senderId : string)
  | SignalingError (targetId message : string).

(** The three fields of the base class, as each subclass's constructor
    passes them to [super(...)]. *)
Definition type (m : SignalingMessage) : SignalingMessageType.t :=
  match m with
  | SignalingOffer _ _ _ => Offer
  | SignalingAnswer _ _ _ => Answer
  | SignalingIceCandidate _ _ _ => IceCandidate
  | SignalingClientId _ _ _ => ClientId
  | SignalingPeerList _ _ _ _ _ => PeerList
  | SignalingCreateRoom _ _ => CreateRoom
  | SignalingJoinRoom _ _ => JoinRoom
  | SignalingJoinOrCreateRoom _ _ => JoinOrCreate
  | SignalingLeaveRoom _ => LeaveRoom
  | SignalingError _ _ => Error
  end.

Definition targetId (m : SignalingMessage) : string :=
  match m with
  | SignalingOffer t _ _ | SignalingAnswer t _ _
  | SignalingIceCandidate t _ _ | SignalingClientId t _ _
  | SignalingPeerList t _ _ _ _ | SignalingError t _ => t
  | SignalingCreateRoom _ _ | SignalingJoinRoom _ _
  | SignalingJoinOrCreateRoom _ _ | SignalingLeaveRoom _ => ""
  end.

Definition senderId (m : SignalingMessage) : string :=
  match m with
  | SignalingOffer _ s _ | SignalingAnswer _ s _
  | SignalingIceCandidate _ s _ | SignalingClientId _ s _
  | SignalingPeerList _ s _ _ _
  | SignalingCreateRoom s _ | SignalingJoinRoom s _
  | SignalingJoinOrCreateRoom s _ | SignalingLeaveRoom s => s
  | SignalingError _ _ => ""
  end.

(** [SignalingError.roomNotFound] and [SignalingError.roomAlreadyExists]. *)
Definition roomNotFound (roomCode targetId : string) : SignalingMessage :=
  SignalingError targetId ("Room " +:+ roomCode +:+ " does not exist.").

Definition roomAlreadyExists (roomCode targetId : string) : SignalingMessage :=
  SignalingError targetId ("Room " +:+ roomCode +:+ " already exists.").

(** [SignalingMessage.toContent] and its overrides. *)
Definition base_toContent (m : SignalingMessage) : SignalingContent :=
  {| SignalingContent.type := Some (value (type m));
     SignalingContent.targetId := targetId m;
     SignalingContent.senderId := senderId m;
     SignalingContent.offer := None;
     SignalingContent.offerTargetId := None;
     SignalingContent.answer := None;
     SignalingContent.iceCandidate := None;
     SignalingContent.clientId := None;
     SignalingContent.peerList := None;
     SignalingContent.roomCode := None;
     SignalingContent.roomId := None;
     SignalingContent.errorMessage := None |}.

Definition toContent (m : SignalingMessage) : SignalingContent :=
  let super := base_toContent m in
  match m with
  | SignalingOffer _ _ o =>
      let 'SignalingContent.mk ty t s _ ot a i c p rc ri e := super in
      SignalingContent.mk ty t s (Some o) ot a i c p rc ri e
  | SignalingAnswer _ _ x =>
      let 'SignalingContent.mk ty t s o ot _ i c p rc ri e := super in
      SignalingContent.mk ty t s o ot (Some x) i c p rc ri e
  | SignalingIceCandidate _ _ x =>
      let 'SignalingContent.mk ty t s o ot a _ c p rc ri e := super in
      SignalingContent.mk ty t s o ot a (Some x) c p rc ri e
  | SignalingClientId _ _ id =>
      let 'SignalingContent.mk ty t s o ot a i _ p rc ri e := super in
      SignalingContent.mk ty t s o ot a i (Some id) p rc ri e
  | SignalingPeerList _ _ l code rid =>
      let 'SignalingContent.mk ty t s o ot a i c _ _ _ e := super in
      SignalingContent.mk ty t s o ot a i c (Some l) (Some code) (Some rid) e
  | SignalingCreateRoom _ code | SignalingJoinRoom _ code =>
      let 'SignalingContent.mk ty t s o ot a i c p _ ri e := super in
      SignalingContent.mk ty t s o ot a i c p (Some code) ri e
  | SignalingJoinOrCreateRoom _ rid =>
      let 'SignalingContent.mk ty t s o ot a i c p rc _ e := super in
      SignalingContent.mk ty t s o ot a i c p rc (Some rid) e
  | SignalingLeaveRoom _ => super
  | SignalingError _ msg =>
      let 'SignalingContent.mk ty t s o ot a i c p rc ri _ := super in
      SignalingContent.mk ty t s o ot a i c p rc ri (Some msg)
  end.

(** [`${content.type}`] in the messages of the exceptions. *)
Definition show_type (ty : option Z) : string :=
  match ty with
  | Some n => pretty n
  | None => "undefined"
  end.

Definition expected (want : SignalingMessageType.t) (got : option Z) : Exception :=
  ParseError ("Expected message type " +:+ pretty (value want)
              +:+ " - got " +:+ show_type got +:+ ".").

(** [content.type != T]. *)
Definition type_differs (content : SignalingContent) (want : SignalingMessageType.t) : bool :=
  negb (bool_decide (SignalingContent.type content = Some (value want))).

Definition Result := sum Exception SignalingMessage.

(** The static [fromContent] of each subclass. *)
Definition SignalingOffer_fromContent (content : SignalingContent) : Result :=
  if type_differs content Offer then inl (expected Offer (SignalingContent.type content))
  else if json_is_null (SignalingContent.offer content)
  then inl (InvalidMessageException "Offer is required.")
  else inr (SignalingOffer (SignalingContent.targetId content)
                           (SignalingContent.senderId content)
                           (default JNull (SignalingContent.offer content))).

Definition SignalingAnswer_fromContent (content : SignalingContent) : Result :=
  if type_differs content Answer then inl (expected Answer (SignalingContent.type content))
  else if json_is_null (SignalingContent.answer content)
  then inl (InvalidMessageException "Answer is required.")
  else inr (SignalingAnswer (SignalingContent.targetId content)
                            (SignalingContent.senderId content)
                            (default JNull (SignalingContent.answer content))).

Definition SignalingIceCandidate_fromContent (content : SignalingContent) : Result :=
  if type_differs content IceCandidate
  then inl (expected IceCandidate (SignalingContent.type content))
  else if json_is_null (SignalingContent.iceCandidate content)
  then inl (InvalidMessageException "Candidate is required.")
  else inr (SignalingIceCandidate (SignalingContent.targetId content)
                                  (SignalingContent.senderId content)
                                  (default JNull (SignalingContent.iceCandidate content))).

Definition SignalingClientId_fromContent (content : SignalingContent) : Result :=
  if type_differs content ClientId then inl (expected ClientId (SignalingContent.type content))
  else match SignalingContent.clientId content with
       | None => inl (InvalidMessageException "Id is required.")
       | Some id => inr (SignalingClientId (SignalingContent.targetId content)
                                           (SignalingContent.senderId content) id)
       end.

Definition SignalingPeerList_fromContent (content : SignalingContent) : Result :=
  if type_differs content PeerList then inl (expected PeerList (SignalingContent.type content))
  else match SignalingContent.peerList content with
       | None => inl (InvalidMessageException "peerList is required.")
       | Some l =>
           match SignalingContent.roomCode content with
           | None => inl (InvalidMessageException "roomCode is required.")
           | Some code =>
               match SignalingContent.roomId content with
               | None => inl (InvalidMessageException "roomId is required.")
               | Some rid =>
                   inr (SignalingPeerList (SignalingContent.targetId content)
                                          (SignalingContent.senderId content) l code rid)
               end
           end
       end.

Definition SignalingCreateRoom_fromContent (content : SignalingContent) : Result :=
  if type_differs content CreateRoom
  then inl (expected CreateRoom (SignalingContent.type content))
  else match SignalingContent.roomCode content with
       | None => inl (InvalidMessageException "roomCode is required.")
       | Some code => inr (SignalingCreateRoom (SignalingContent.senderId content) code)
       end.

Definition SignalingJoinRoom_fromContent (content : SignalingContent) : Result :=
  if type_differs content JoinRoom
  then inl (expected JoinRoom (SignalingContent.type content))
  else match SignalingContent.roomCode content with
       | None => inl (InvalidMessageException "roomCode is required.")
       | Some code => inr (SignalingJoinRoom (SignalingContent.senderId content) code)
       end.

Definition SignalingJoinOrCreateRoom_fromContent (content : SignalingContent) : Result :=
  if type_differs content JoinOrCreate
  then inl (expected JoinOrCreate (SignalingContent.type content))
  else match SignalingContent.roomId content with
       | None => inl (InvalidMessageException "roomId is required.")
       | Some rid => inr (SignalingJoinOrCreateRoom (SignalingContent.senderId content) rid)
       end.

Definition SignalingLeaveRoom_fromContent (content : SignalingContent) : Result :=
  if type_differs content LeaveRoom
  then inl (expected LeaveRoom (SignalingContent.type content))
  else inr (SignalingLeaveRoom (SignalingContent.senderId content)).

Definition SignalingError_fromContent (content : SignalingContent) : Result :=
  if type_differs content Error then inl (expected Error (SignalingContent.type content))
  else match SignalingContent.errorMessage content with
       | None => inl (InvalidMessageException "errorMessage is required.")
       | Some msg => inr (SignalingError (SignalingContent.targetId content) msg)
       end.

(** The [switch (content.type)] of [fromJson], after the [== null] test. *)
Definition dispatch_content (content : SignalingContent) : Result :=
  match SignalingContent.type content with
  | None => inl (InvalidMessageException "Message type is required")
  | Some 0 => SignalingOffer_fromContent content
  | Some 1 => SignalingAnswer_fromContent content
  | Some 2 => SignalingIceCandidate_fromContent content
  | Some 3 => SignalingClientId_fromContent content
  | Some 4 => SignalingPeerList_fromContent content
  | Some 5 => SignalingCreateRoom_fromContent content
  | Some 6 => SignalingJoinRoom_fromContent content
  | Some 7 => SignalingLeaveRoom_fromContent content
  | Some 9 => SignalingJoinOrCreateRoom_fromContent content
  | Some 8 => SignalingError_fromContent content
  | Some n =>
      inl (InvalidMessageException ("Invalid message type " +:+ pretty n +:+ "."))
  end.

(** What a frame carries: one buffer, or an array of buffers. *)
Inductive RawData (wire : Type) :=
  | Buffer (b : wire)
  | Buffers (bs : list wire).
Arguments Buffer {wire} b.
Arguments Buffers {wire} bs.

Section Codec.
(** [JSON.stringify] and [JSON.parse] are the platform's; [wire] is the
    text they produce and consume.  [JSON_parse] answers [None] where the
    platform raises [SyntaxError]. *)
Context {wire : Type}.
Variable JSON_stringify : SignalingContent -> wire.
Variable JSON_parse : wire -> option SignalingContent.

Definition toJson (m : SignalingMessage) : wire :=
  JSON_stringify (toContent m).

Definition fromJson (text : wire) : Result :=
  match JSON_parse text with
  | None => inl SyntaxError
  | Some content => dispatch_content content
  end.

(** [parseMessage]: a single buffer is one message; each buffer of an
    array is decoded on its own, in order, and the first failure aborts
    the whole frame. *)
Fixpoint fromBuffers (data : list wire) : sum Exception (list SignalingMessage) :=
  match data with
  | [] => inr []
  | buffer :: rest =>
      match fromJson buffer with
      | inl e => inl e
      | inr message =>
          match fromBuffers rest with
          | inl e => inl e
          | inr result => inr (message :: result)
          end
      end
  end.

Definition parseMessage (data : RawData wire) : sum Exception (list SignalingMessage) :=
  match data with
  | Buffer b =>
      match fromJson b with
      | inl e => inl e
      | inr message => inr [message]
      end
  | Buffers bs => fromBuffers bs
  end.
End Codec.

(** A message is valid when its payload is a value: the three relayed
    variants carry a description or candidate that is not [null]. *)
Definition valid (m : SignalingMessage) : Prop :=
  match m with
  | SignalingOffer _ _ x | SignalingAnswer _ _ x | SignalingIceCandidate _ _ x =>
      x <> JNull
  | _ => True
  end.

End Messages.

(* ===================================================================== *)
(** * The server (registry, room directory, dispatcher, abuse guard)      *)
(* ===================================================================== *)

Module Server.
Import Messages.

(** A [WebSocket] object, by identity. *)
Definition Socket := nat.
Bind Scope nat_scope with Socket.

Record ClientInfo := mkClientInfo {
  socket : Socket;
  roomId : option string;
}.

Module CustomCloseCodes.
Definition UNKNOWN_ORIGIN : Z := 4000.
Definition INVALID_MESSAGE : Z := 4002.
Definition TOO_MANY_CONNECTIONS : Z := 4029.
Definition RATE_LIMIT_EXCEEDED : Z := 4030.
End CustomCloseCodes.

Definition MaxMessageSize : Z := 10000.
Definition MaxConnectionsPerIp : Z := 10.
Definition MaxMessagesPerSeconds : Z := 20.

Definition RoomCodeCharacters : string := "ABCDEFGHIJKLMNOPQRSTUVWXYZ0123456789".
Definition RoomCodeLength : nat := 4.

(** The five module-level maps. *)
Record ServerState := mkServerState {
  connectionCounts : gmap string Z;
  clients : gmap string ClientInfo;
  rooms : gmap string (list string);
  roomCodeToId : gmap string string;
  roomIdToCode : gmap string string;
}.

Definition initial : ServerState :=
  {| connectionCounts := ∅; clients := ∅; rooms := ∅;
     roomCodeToId := ∅; roomIdToCode := ∅ |}.

Definition set_connectionCounts (f : gmap string Z -> gmap string Z) (s : ServerState) :=
  {| connectionCounts := f (connectionCounts s); clients := clients s; rooms := rooms s;
     roomCodeToId := roomCodeToId s; roomIdToCode := roomIdToCode s |}.
Definition set_clients (f : gmap string ClientInfo -> gmap string ClientInfo) (s : ServerState) :=
  {| connectionCounts := connectionCounts s; clients := f (clients s); rooms := rooms s;
     roomCodeToId := roomCodeToId s; roomIdToCode := roomIdToCode s |}.
Definition set_rooms (f : gmap string (list string) -> gmap string (list string)) (s : ServerState) :=
  {| connectionCounts := connectionCounts s; clients := clients s; rooms := f (rooms s);
     roomCodeToId := roomCodeToId s; roomIdToCode := roomIdToCode s |}.
Definition set_roomCodeToId (f : gmap string string -> gmap string string) (s : ServerState) :=
  {| connectionCounts := connectionCounts s; clients := clients s; rooms := rooms s;
     roomCodeToId := f (roomCodeToId s); roomIdToCode := roomIdToCode s |}.
Definition set_roomIdToCode (f : gmap string string -> gmap string string) (s : ServerState) :=
  {| connectionCounts := connectionCounts s; clients := clients s; rooms := rooms s;
     roomCodeToId := roomCodeToId s; roomIdToCode := f (roomIdToCode s) |}.

(** What the server does to a socket: [socket.send(message.toBuffer())]
    and [socket.close(code, reason)]. *)
Inductive Output :=
  | Send (socket : Socket) (message : SignalingMessage)
  | Close (socket : Socket) (code : Z) (reason : string).

(** ** The monad of the server's functions

    A function of the server reads and writes the five maps, writes to
    sockets and may raise.  An exception keeps the writes made before it. *)
Inductive Completion (A : Type) :=
  | Normal (a : A)
  | Thrown (e : Exception).
Arguments Normal {A} a.
Arguments Thrown {A} e.

Definition M (A : Type) : Type :=
  ServerState -> Completion A * ServerState * list Output.

#[global] Instance M_ret : MRet M := fun A a s => (Normal a, s, []).

#[global] Instance M_bind : MBind M := fun A B k m s =>
  match m s with
  | (Normal a, s1, o1) => let '(r, s2, o2) := k a s1 in (r, s2, o1 ++ o2)
  | (Thrown e, s1, o1) => (Thrown e, s1, o1)
  end.

#[global] Instance M_throw : MThrow Exception M := fun A e s => (Thrown e, s, []).

Definition gets {A} (f : ServerState -> A) : M A := fun s => (Normal (f s), s, []).
Definition modify (f : ServerState -> ServerState) : M unit := fun s => (Normal tt, f s, []).
Definition emit (o : Output) : M unit := fun s => (Normal tt, s, [o]).

Definition completion {A} (r : Completion A * ServerState * list Output) := r.1.1.
Definition state {A} (r : Completion A * ServerState * list Output) := r.1.2.
Definition outputs {A} (r : Completion A * ServerState * list Output) := r.2.

(** ** Arrays *)

(** [room.indexOf(x)]: the first position of [x], or [-1]. *)
Fixpoint indexOf (room : list string) (x : string) : Z :=
  match room with
  | [] => -1
  | y :: rest =>
      if decide (y = x) then 0
      else let i := indexOf rest x in if i <? 0 then -1 else i + 1
  end.

(** [room.splice(start, deleteCount)], the array it leaves behind: a
    negative [start] counts from the end, and both numbers are clamped to
    the array. *)
Definition splice {A} (room : list A) (start deleteCount : Z) : list A :=
  let len := Z.of_nat (length room) in
  let actualStart := if start <? 0 then Z.max (len + start) 0 else Z.min start len in
  let actualDeleteCount := Z.min (Z.max deleteCount 0) (len - actualStart) in
  take (Z.to_nat actualStart) room
    ++ drop (Z.to_nat (actualStart + actualDeleteCount)) room.

(** ** Broadcast and relay *)

(** The [for (const peer of peers)] loop of [broadcast]. *)
Fixpoint broadcast_peers (message : SignalingMessage) (peers : list string) : M unit :=
  match peers with
  | [] => mret tt
  | peer :: rest =>
      client ← gets (fun s => clients s !! peer);
      match client with
      | None => mret tt
      | Some client => emit (Send (socket client) message)
      end;;
      broadcast_peers message rest
  end.

Definition broadcast (message : SignalingMessage) (roomId : string) : M unit :=
  peers ← gets (fun s => rooms s !! roomId);
  match peers with
  | None => mret tt
  | Some peers => broadcast_peers message peers
  end.

Definition broadcastPeerList (roomId : string) : M unit :=
  peers ← gets (fun s => rooms s !! roomId);
  code ← gets (fun s => roomIdToCode s !! roomId);
  match peers, code with
  | Some peers, Some code =>
      broadcast (SignalingPeerList "" "" peers code roomId) roomId
  | _, _ => mret tt
  end.

Definition forwardMessage (message : SignalingMessage) : M unit :=
  client ← gets (fun s => clients s !! targetId message);
  match client with
  | None => mret tt
  | Some client => emit (Send (socket client) message)
  end.

(** ** The room directory

    The [client] argument of [createRoom], [joinRoomById], [joinRoom] and
    [joinOrCreateRoom] is the object that [handleMessage] read from
    [clients] under [message.senderId]; [client.roomId = id] therefore
    writes to the entry of [clients] under that key. *)
Definition set_client_roomId (clientKey : string) (id : string) : M unit :=
  modify (set_clients (alter (fun c => {| socket := socket c; roomId := Some id |}) clientKey)).

Definition addRoom (id code : string) (peers : list string) : M unit :=
  modify (set_rooms <[id := peers]>);;
  modify (set_roomCodeToId <[code := id]>);;
  modify (set_roomIdToCode <[id := code]>).

(** [id] is the value of [crypto.randomUUID()]. *)
Definition createRoom (id : string) (senderId roomCode : string) (socket : Socket) : M unit :=
  has ← gets (fun s => bool_decide (is_Some (roomCodeToId s !! roomCode)));
  if has : bool then emit (Send socket (roomAlreadyExists roomCode senderId))
  else
    addRoom id roomCode [senderId];;
    set_client_roomId senderId id;;
    broadcastPeerList id.

(** [rooms.get(roomId)!.push(clientId)] raises a [TypeError] when the room
    is not there. *)
Definition joinRoomById (roomId clientId : string) : M unit :=
  peers ← gets (fun s => rooms s !! roomId);
  match peers with
  | None => mthrow (TypeError "Cannot read properties of undefined (reading 'push')")
  | Some peers =>
      modify (set_rooms <[roomId := peers ++ [clientId]]>);;
      set_client_roomId clientId roomId;;
      broadcastPeerList roomId
  end.

Definition joinRoom (senderId roomCode : string) (socket : Socket) : M unit :=
  id ← gets (fun s => roomCodeToId s !! roomCode);
  match id with
  | None => emit (Send socket (roomNotFound roomCode senderId))
  | Some id => joinRoomById id senderId
  end.

(** [RoomCodeCharacters.charAt(i)]: the empty string out of range. *)
Definition charAt (s : string) (i : nat) : string :=
  match String.get i s with
  | Some c => String c ""
  | None => ""
  end.

(** [random i] is [Math.floor(Math.random() * RoomCodeCharacters.length)]
    at the [i]-th turn of the loop. *)
Definition generateRoomCode (random : nat -> nat) : string :=
  foldl (fun code i => code +:+ charAt RoomCodeCharacters (random i)) ""
        (seq 0 RoomCodeLength).

Definition joinOrCreateRoom (random : nat -> nat) (senderId roomId : string) : M unit :=
  has ← gets (fun s => bool_decide (is_Some (rooms s !! roomId)));
  (if has : bool then mret tt
   else addRoom roomId (generateRoomCode random) []);;
  joinRoomById roomId senderId.

(** [leaveRoom] only reads its [client] argument. *)
Definition leaveRoom (senderId : string) (client : ClientInfo) : M unit :=
  match roomId client with
  | None => mret tt
  | Some roomCode =>
      room ← gets (fun s => rooms s !! roomCode);
      match room with
      | None => mret tt
      | Some room =>
          let room' := splice room (indexOf room senderId) 1 in
          modify (set_rooms <[roomCode := room']>);;
          if bool_decide (length room' = 0%nat)
          then modify (set_rooms (delete roomCode))
          else broadcastPeerList roomCode
      end
  end.

(** ** The dispatcher *)

(** The random values one call of [handleMessage] may draw. *)
Record Entropy := mkEntropy {
  uuid : string;
  random : nat -> nat;
}.

Definition handleMessage (entropy : Entropy) (message : SignalingMessage)
    (socket : Socket) : M unit :=
  sender ← gets (fun s => clients s !! senderId message);
  match sender with
  | None => mret tt
  | Some sender =>
      match message with
      | SignalingCreateRoom senderId roomCode =>
          createRoom (uuid entropy) senderId roomCode socket
      | SignalingJoinRoom senderId roomCode =>
          joinRoom senderId roomCode socket
      | SignalingJoinOrCreateRoom senderId roomId =>
          joinOrCreateRoom (random entropy) senderId roomId
      | SignalingLeaveRoom senderId =>
          leaveRoom senderId sender
      | SignalingOffer _ _ _ | SignalingAnswer _ _ _ | SignalingIceCandidate _ _ _ =>
          forwardMessage message
      | _ =>
          emit (Close socket CustomCloseCodes.INVALID_MESSAGE "Invalid message type")
      end
  end.

(** ** Disconnect cleanup *)

(** The body of [rooms.forEach] in [removeClient], on one room. *)
Definition remove_from_room (clientId : string) (room : list string) : list string :=
  let index := indexOf room clientId in
  if bool_decide (index <> -1) then splice room index 1 else room.

(** The ids pushed to [toDelete]: the rooms of length zero. *)
Definition toDelete (rooms : gmap string (list string)) : list string :=
  (filter (fun entry => length entry.2 = 0%nat) (map_to_list rooms)).*1.

Definition removeClient (clientId : string) (ip : option string) : M unit :=
  match ip with
  | None => mret tt
  | Some ip =>
      counts ← gets connectionCounts;
      let count := default 0 (counts !! ip) - 1 in
      (if count <=? 0 then modify (set_connectionCounts (delete ip))
       else modify (set_connectionCounts <[ip := count]>));;
      modify (set_clients (delete clientId));;
      modify (set_rooms (fmap (remove_from_room clientId)));;
      closed ← gets (fun s => toDelete (rooms s));
      modify (set_rooms (fun rooms => foldr delete rooms closed))
  end.

(** ** The abuse guard *)

Definition checkConnectionCount (socket : Socket) (ip : option string) : M bool :=
  match ip with
  | None =>
      emit (Close socket CustomCloseCodes.UNKNOWN_ORIGIN
                  "Unable to determine client address.");;
      mret false
  | Some ip =>
      counts ← gets connectionCounts;
      let count := default 0 (counts !! ip) in
      if count >? MaxConnectionsPerIp then
        emit (Close socket CustomCloseCodes.TOO_MANY_CONNECTIONS "Too many connections.");;
        mret false
      else
        modify (set_connectionCounts <[ip := count + 1]>);;
        mret true
  end.

(** The two variables the connection callback closes over for its message
    handler. *)
Record RateWindow := mkRateWindow {
  messageCount : Z;
  resetAt : Z;
}.

(** The head of the message handler: the window as the handler leaves it,
    and whether the frame goes on to the size check. *)
Definition rateGate (now : Z) (w : RateWindow) : RateWindow * bool :=
  let w :=
    if now >? resetAt w then {| messageCount := 0; resetAt := now |} else w in
  if messageCount w >? MaxMessagesPerSeconds then (w, false)
  else ({| messageCount := messageCount w + 1; resetAt := resetAt w |}, true).

Section Handlers.
Context {wire : Type}.
Variable JSON_parse : wire -> option SignalingContent.
(** [Buffer.byteLength]. *)
Variable byteLength : wire -> Z.

Definition checkMessageSize (buffer : RawData wire) (socket : Socket) : M bool :=
  let size :=
    match buffer with
    | Buffers bs => foldl (fun sum b => sum + byteLength b) 0 bs
    | Buffer b => byteLength b
    end in
  if size >? MaxMessageSize then
    emit (Close socket 1009 "Message too large");;
    mret false
  else mret true.

(** The [for (const message of messages)] loop of the message handler;
    the [i]-th message draws from [entropy i]. *)
Fixpoint handleMessages (entropy : nat -> Entropy) (i : nat)
    (messages : list SignalingMessage) (socket : Socket) : M unit :=
  match messages with
  | [] => mret tt
  | message :: rest =>
      handleMessage (entropy i) message socket;;
      handleMessages entropy (S i) rest socket
  end.

(** The rest of the message handler, for a frame that passed the rate
    gate. *)
Definition processFrame (entropy : nat -> Entropy) (buffer : RawData wire)
    (socket : Socket) : M unit :=
  ok ← checkMessageSize buffer socket;
  if ok : bool then
    match parseMessage JSON_parse buffer with
    | inl _ => emit (Close socket CustomCloseCodes.INVALID_MESSAGE "Invalid message")
    | inr messages => handleMessages entropy 0 messages socket
    end
  else mret tt.

(** [socket.on('message', ...)]. *)
Definition onMessage (now : Z) (entropy : nat -> Entropy) (buffer : RawData wire)
    (socket : Socket) (w : RateWindow) : RateWindow * M unit :=
  let '(w, pass) := rateGate now w in
  (w, if pass : bool then processFrame entropy buffer socket
      else emit (Close socket CustomCloseCodes.RATE_LIMIT_EXCEEDED "Rate limit exceeded.")).
End Handlers.

(** [server.on('connection', ...)] up to the point where the handlers are
    installed; the answer tells whether they are.  [clientId] is the value
    of [crypto.randomUUID()]. *)
Definition onConnection (socket : Socket) (remoteAddress : option string)
    (clientId : string) : M bool :=
  ok ← checkConnectionCount socket remoteAddress;
  if ok : bool then
    modify (set_clients <[clientId := {| socket := socket; roomId := None |}]>);;
    emit (Send socket (SignalingClientId clientId "" clientId));;
    mret true
  else mret false.

(** ** Sequences of operations *)

(** One call into the registry and directory: a connection attempt, one
    dispatched message, or the cleanup of the close handler (which reads
    [request.socket.remoteAddress] again at that time). *)
Inductive Operation :=
  | Connect (socket : Socket) (remoteAddress : option string) (clientId : string)
  | Dispatch (entropy : Entropy) (message : SignalingMessage) (socket : Socket)
  | Disconnect (clientId : string) (remoteAddress : option string).

Definition perform (op : Operation) : M unit :=
  match op with
  | Connect socket remoteAddress clientId =>
      onConnection socket remoteAddress clientId;; mret tt
  | Dispatch entropy message socket => handleMessage entropy message socket
  | Disconnect clientId remoteAddress => removeClient clientId remoteAddress
  end.

(** The state after a sequence of operations, and everything written to the
    sockets on the way.  An operation that raises leaves the maps as they
    were when it raised. *)
Fixpoint run (ops : list Operation) (s : ServerState) : ServerState * list Output :=
  match ops with
  | [] => (s, [])
  | op :: rest =>
      let r := perform op s in
      let '(s', out) := run rest (state r) in
      (s', outputs r ++ out)
  end.

(** ** The event loop

    The three callbacks the transport calls, with the variables the
    connection callback closes over kept per socket. *)
Record Connection := mkConnection {
  clientId : string;
  window : RateWindow;
}.

Record System := mkSystem {
  server : ServerState;
  connections : gmap Socket Connection;
}.

Definition boot : System := {| server := initial; connections := ∅ |}.

Inductive Event (wire : Type) :=
  | Accepted (socket : Socket) (remoteAddress : option string) (uuid : string) (now : Z)
  | Frame (socket : Socket) (now : Z) (entropy : nat -> Entropy) (buffer : RawData wire)
  | Closed (socket : Socket) (remoteAddress : option string).
Arguments Accepted {wire} socket remoteAddress uuid now.
Arguments Frame {wire} socket now entropy buffer.
Arguments Closed {wire} socket remoteAddress.

Section EventLoop.
Context {wire : Type}.
Variable JSON_parse : wire -> option SignalingContent.
Variable byteLength : wire -> Z.

Definition step (ev : Event wire) (sys : System) : System * list Output :=
  match ev with
  | Accepted socket remoteAddress uuid now =>
      let r := onConnection socket remoteAddress uuid (server sys) in
      ({| server := state r;
          connections :=
            match completion r with
            | Normal true =>
                <[socket := {| clientId := uuid;
                               window := {| messageCount := 0; resetAt := now + 1000 |} |}]>
                  (connections sys)
            | _ => connections sys
            end |},
       outputs r)
  | Frame socket now entropy buffer =>
      match connections sys !! socket with
      | None => (sys, [])
      | Some c =>
          let '(w, handler) :=
            onMessage JSON_parse byteLength now entropy buffer socket (window c) in
          let r := handler (server sys) in
          ({| server := state r;
              connections :=
                <[socket := {| clientId := clientId c; window := w |}]> (connections sys) |},
           outputs r)
      end
  | Closed socket remoteAddress =>
      match connections sys !! socket with
      | None => (sys, [])
      | Some c =>
          let r := removeClient (clientId c) remoteAddress (server sys) in
          ({| server := state r; connections := delete socket (connections sys) |},
           outputs r)
      end
  end.

Fixpoint process (evs : list (Event wire)) (sys : System) : System * list Output :=
  match evs with
  | [] => (sys, [])
  | ev :: rest =>
      let '(sys1, out1) := step ev sys in
      let '(sys2, out2) := process rest sys1 in
      (sys2, out1 ++ out2)
  end.
End EventLoop.

(** The verdicts of the rate gate on the frames of one connection, given
    the times at which they arrive. *)
Fixpoint gate_frames (times : list Z) (w : RateWindow) : list bool :=
  match times with
  | [] => []
  | now :: rest => let '(w', pass) := rateGate now w in pass :: gate_frames rest w'
  end.

(** The window of a connection accepted at [now]. *)
Definition opened_at (now : Z) : RateWindow :=
  {| messageCount := 0; resetAt := now + 1000 |}.

(** ** Vocabulary of the properties *)

(** What [broadcast] writes: one [send] per listed peer that is registered. *)
Definition deliveries (s : ServerState) (message : SignalingMessage)
    (peers : list string) : list Output :=
  omap (fun peer => (fun c => Send (socket c) message) <$> clients s !! peer) peers.

(** What [broadcastPeerList] writes in state [s]. *)
Definition peerListUpdate (s : ServerState) (roomId : string) : list Output :=
  match rooms s !! roomId, roomIdToCode s !! roomId with
  | Some peers, Some code => deliveries s (SignalingPeerList "" "" peers code roomId) peers
  | _, _ => []
  end.

(** The state after [rooms.set(id, peers)] and [client.roomId = id]. *)
Definition with_room (id : string) (peers : list string) (clientKey : string)
    (s : ServerState) : ServerState :=
  set_clients (alter (fun c => {| socket := socket c; roomId := Some id |}) clientKey)
    (set_rooms <[id := peers]> s).

(** The state after the two [set] calls of [addRoom] on the code maps. *)
Definition with_mapping (id code : string) (s : ServerState) : ServerState :=
  set_roomIdToCode <[id := code]> (set_roomCodeToId <[code := id]> s).

(** The state [leaveRoom] leaves when the spliced array is [room']. *)
Definition after_leaveRoom (roomCode : string) (room' : list string)
    (s : ServerState) : ServerState :=
  if bool_decide (length room' = 0%nat) then set_rooms (delete roomCode) s
  else set_rooms <[roomCode := room']> s.

(** The state [removeClient] leaves for a known address. *)
Definition after_removeClient (clientId ip : string) (s : ServerState) : ServerState :=
  let count := default 0 (connectionCounts s !! ip) - 1 in
  let pruned := remove_from_room clientId <$> rooms s in
  {| connectionCounts :=
       if count <=? 0 then delete ip (connectionCounts s)
       else <[ip := count]> (connectionCounts s);
     clients := delete clientId (clients s);
     rooms := foldr delete pruned (toDelete pruned);
     roomCodeToId := roomCodeToId s;
     roomIdToCode := roomIdToCode s |}.

(** What one dispatched message can do to the maps: nothing, open a room
    for its sender, append its sender to a room, or splice a room. *)
Inductive Effect (s : ServerState) (message : SignalingMessage) : ServerState -> Prop :=
  | effect_none : Effect s message s
  | effect_open id code :
      type message = SignalingMessageType.CreateRoom
      \/ type message = SignalingMessageType.JoinOrCreate ->
      Effect s message
        (with_room id [senderId message] (senderId message) (with_mapping id code s))
  | effect_join id peers :
      type message = SignalingMessageType.JoinRoom
      \/ type message = SignalingMessageType.JoinOrCreate ->
      rooms s !! id = Some peers ->
      Effect s message
        (with_room id (peers ++ [senderId message]) (senderId message) s)
  | effect_leave roomCode room :
      type message = SignalingMessageType.LeaveRoom ->
      rooms s !! roomCode = Some room ->
      Effect s message
        (after_leaveRoom roomCode (splice room (indexOf room (senderId message)) 1) s).

(** Every room that exists has a member. *)
Definition rooms_nonempty (s : ServerState) : Prop :=
  map_Forall (fun _ room => room <> []) (rooms s).

(** No room lists an id twice, and no id is listed by two rooms. *)
Definition unique_in (m : gmap string (list string)) : Prop :=
  (forall rid room, m !! rid = Some room -> NoDup room) /\
  (forall r1 r2 room1 room2 x,
      m !! r1 = Some room1 -> m !! r2 = Some room2 ->
      x ∈ room1 -> x ∈ room2 -> r1 = r2).

Definition members_unique (s : ServerState) : Prop := unique_in (rooms s).

Definition in_some_room (s : ServerState) (x : string) : bool :=
  bool_decide (map_Exists (fun _ room => x ∈ room) (rooms s)).

(** The messages that put their sender in a room. *)
Definition joins (message : SignalingMessage) : Prop :=
  type message = SignalingMessageType.CreateRoom \/
  type message = SignalingMessageType.JoinRoom \/
  type message = SignalingMessageType.JoinOrCreate.

(** An operation is allowed when it does not put in a room a sender that
    some room already lists. *)
Definition allowed (s : ServerState) (op : Operation) : bool :=
  match op with
  | Dispatch _ (SignalingCreateRoom sender _) _
  | Dispatch _ (SignalingJoinRoom sender _) _
  | Dispatch _ (SignalingJoinOrCreateRoom sender _) _ => negb (in_some_room s sender)
  | _ => true
  end.

(** A sequence of operations is disciplined from [s] when each operation
    is allowed in the state it runs in. *)
Fixpoint disciplined (ops : list Operation) (s : ServerState) : bool :=
  match ops with
  | [] => true
  | op :: rest => allowed s op && disciplined rest (state (perform op s))
  end.

(** ** Scenarios *)

Definition address : string := "10.0.0.1".

Definition entropy0 : Entropy := {| uuid := "room-1"; random := fun i => i |}.

Definition a_alone_in_room : list Operation :=
  [ Connect 1 (Some address) "a";
    Dispatch entropy0 (SignalingCreateRoom "a" "AB12") 1 ].

Definition a_and_b_in_room : list Operation :=
  a_alone_in_room
  ++ [ Connect 2 (Some address) "b";
       Dispatch entropy0 (SignalingJoinRoom "b" "AB12") 2 ].

Definition three_in_room_a_left : list Operation :=
  a_and_b_in_room
  ++ [ Connect 3 (Some address) "c";
       Dispatch entropy0 (SignalingJoinRoom "c" "AB12") 3;
       Dispatch entropy0 (SignalingLeaveRoom "a") 1 ].

Definition come_and_go : list Operation :=
  a_and_b_in_room
  ++ [ Dispatch entropy0 (SignalingLeaveRoom "b") 2;
       Disconnect "a" (Some address) ].

Definition joins_twice : list Operation :=
  a_alone_in_room ++ [ Dispatch entropy0 (SignalingJoinRoom "a" "AB12") 1 ].

Definition opens_second_room : list Operation :=
  a_alone_in_room
  ++ [ Dispatch {| uuid := "room-2"; random := fun i => i |}
                (SignalingCreateRoom "a" "CD34") 1 ].

(** [count] connection attempts from [ip], on sockets [first], [first+1], ... *)
Definition connections_from (ip : string) (first count : nat) : list Operation :=
  (fun i => Connect i (Some ip) ("client-" +:+ pretty i)) <$> seq first count.

Definition an_offer : SignalingMessage :=
  SignalingOffer "b" "a" (JObj [("type", JStr "offer"); ("sdp", JStr "v=0")]).

(** ** Further scenarios *)

(** A parsed object without a [type]. *)
Definition untyped_content : SignalingContent :=
  {| SignalingContent.type := None;
     SignalingContent.targetId := "";
     SignalingContent.senderId := "a";
     SignalingContent.offer := None;
     SignalingContent.offerTargetId := None;
     SignalingContent.answer := None;
     SignalingContent.iceCandidate := None;
     SignalingContent.clientId := None;
     SignalingContent.peerList := None;
     SignalingContent.roomCode := None;
     SignalingContent.roomId := None;
     SignalingContent.errorMessage := None |}.

(** A [CreateRoom] request as a client may write it, with a [targetId] the
    protocol does not call for. *)
Definition create_with_target : SignalingContent :=
  {| SignalingContent.type := Some 5;
     SignalingContent.targetId := "b";
     SignalingContent.senderId := "a";
     SignalingContent.offer := None;
     SignalingContent.offerTargetId := None;
     SignalingContent.answer := None;
     SignalingContent.iceCandidate := None;
     SignalingContent.clientId := None;
     SignalingContent.peerList := None;
     SignalingContent.roomCode := Some "AB12";
     SignalingContent.roomId := None;
     SignalingContent.errorMessage := None |}.

(** [a] alone in room [AB12], [b] connected and in no room. *)
Definition b_connected : list Operation :=
  a_alone_in_room ++ [ Connect 2 (Some address) "b" ].

(** The buffers of a frame, and their byte lengths. *)
Definition chunks {wire : Type} (buffer : RawData wire) : list wire :=
  match buffer with
  | Buffer b => [b]
  | Buffers bs => bs
  end.

Definition chunk_sizes {wire : Type} (byteLength : wire -> Z)
    (buffer : RawData wire) : list Z :=
  byteLength <$> chunks buffer.

(** ** Further invariants *)

(** Every address that is counted has between one and
    [MaxConnectionsPerIp + 1] connections counted. *)
Definition counts_in_bounds (s : ServerState) : Prop :=
  map_Forall (fun _ count => 1 <= count <= MaxConnectionsPerIp + 1) (connectionCounts s).

(** Every id a room lists is the id of a registered client. *)
Definition members_registered (s : ServerState) : Prop :=
  forall rid room x, rooms s !! rid = Some room -> x ∈ room -> is_Some (clients s !! x).

(** Every room that exists has a code recorded for its id. *)
Definition rooms_have_codes (s : ServerState) : Prop :=
  forall rid, is_Some (rooms s !! rid) -> is_Some (roomIdToCode s !! rid).

End Server.

(* ===================================================================== *)
(** * Properties                                                          *)
(* ===================================================================== *)

Import Messages Server.

(** ** Running the monad *)

Ltac mrun :=
  unfold mbind, M_bind, mret, M_ret, mthrow, M_throw, gets, modify, emit.

Lemma gets_bind {A B} (f : ServerState -> A) (k : A -> M B) s :
  (gets f ≫= k) s = k (f s) s.
Proof. unfold mbind, M_bind, gets. by destruct (k (f s) s) as [[? ?] ?]. Qed.

Lemma run_app ops1 ops2 s :
  (run (ops1 ++ ops2) s).1 = (run ops2 (run ops1 s).1).1.
Proof.
  revert s. induction ops1 as [|op rest IH]; intros s; cbn [run app]; [done|].
  specialize (IH (state (perform op s))).
  destruct (run (rest ++ ops2) (state (perform op s))),
           (run rest (state (perform op s))).
  done.
Qed.

(** ** Arrays *)

Lemma indexOf_range room x : -1 <= indexOf room x < Z.of_nat (length room).
Proof.
  induction room as [|y rest IH]; cbn [indexOf length]; [lia|].
  destruct (decide (y = x)); [lia|].
  destruct (Z.ltb_spec (indexOf rest x) 0); lia.
Qed.

Lemma indexOf_absent room x : indexOf room x = -1 <-> x ∉ room.
Proof.
  induction room as [|y rest IH]; cbn [indexOf].
  - split; [intros _; apply not_elem_of_nil | done].
  - rewrite not_elem_of_cons. destruct (decide (y = x)) as [->|Hne].
    + split; [lia | intros [? _]; done].
    + pose proof (indexOf_range rest x).
      destruct (Z.ltb_spec (indexOf rest x) 0).
      * split; [intros _; split; [congruence | apply IH; lia] | done].
      * split; [lia | intros [_ H1]; apply IH in H1; lia].
Qed.

Lemma indexOf_present room x :
  x ∈ room -> 0 <= indexOf room x /\ room !! Z.to_nat (indexOf room x) = Some x.
Proof.
  induction room as [|y rest IH]; cbn [indexOf]; [by intros ?%elem_of_nil|].
  intros Hin. destruct (decide (y = x)) as [->|Hne]; [done|].
  apply elem_of_cons in Hin as [->|Hin]; [done|].
  destruct (IH Hin) as [H0 Hl].
  destruct (Z.ltb_spec (indexOf rest x) 0); [lia|].
  split; [lia|].
  by replace (Z.to_nat (indexOf rest x + 1)) with (S (Z.to_nat (indexOf rest x))) by lia.
Qed.

(** Whatever its arguments, [splice] only takes elements away. *)
Lemma splice_sublist {A} (room : list A) start deleteCount :
  sublist (splice room start deleteCount) room.
Proof.
  unfold splice. destruct (Z.ltb_spec start 0).
  all: set (a := Z.to_nat _); set (b := Z.to_nat _).
  all: assert (a <= b)%nat as Hab by (subst a b; lia).
  all: rewrite <- (take_drop a room) at 3.
  all: apply sublist_app; [done|].
  all: replace b with (a + (b - a))%nat by lia; rewrite <- drop_drop.
  all: apply sublist_drop.
Qed.

Lemma splice_at {A} (room : list A) (i : nat) :
  (i < length room)%nat -> splice room (Z.of_nat i) 1 = delete i room.
Proof.
  intros Hi. unfold splice.
  destruct (Z.ltb_spec (Z.of_nat i) 0); [lia|].
  rewrite delete_take_drop. f_equal; f_equal; lia.
Qed.

(** [room.splice(-1, 1)] takes the last element away. *)
Lemma splice_last {A} (room : list A) : splice room (-1) 1 = removelast room.
Proof.
  unfold splice. cbn [Z.ltb Z.compare].
  destruct room as [|x room _] using rev_ind; [done|].
  rewrite removelast_last, length_app. cbn [length].
  replace (Z.to_nat _) with (length room) by lia.
  rewrite take_app_length.
  rewrite drop_ge; [by rewrite app_nil_r|]. rewrite length_app; cbn; lia.
Qed.

Lemma remove_from_room_sublist clientId room :
  sublist (remove_from_room clientId room) room.
Proof.
  unfold remove_from_room. case_bool_decide; [apply splice_sublist | done].
Qed.

Lemma remove_from_room_member clientId room :
  clientId ∈ room ->
  remove_from_room clientId room = delete (Z.to_nat (indexOf room clientId)) room.
Proof.
  intros Hin. destruct (indexOf_present _ _ Hin) as [H0 Hl].
  unfold remove_from_room. rewrite bool_decide_eq_true_2 by lia.
  rewrite <- (Z2Nat.id (indexOf room clientId)) at 1 by done.
  apply splice_at. by eapply lookup_lt_Some.
Qed.

Lemma elem_of_toDelete (m : gmap string (list string)) k :
  k ∈ toDelete m <-> m !! k = Some [].
Proof.
  unfold toDelete. rewrite list_elem_of_fmap. split.
  - intros [[k' l] [-> [Hl Hin]%list_elem_of_filter]]. cbn in *.
    apply elem_of_map_to_list in Hin. by destruct l.
  - intros H. exists (k, []). split; [done|].
    apply list_elem_of_filter. split; [done|]. by apply elem_of_map_to_list.
Qed.

(** After the second loop of [removeClient], the rooms left are those that
    still have a member. *)
Lemma lookup_close_empty (m : gmap string (list string)) k room :
  foldr delete m (toDelete m) !! k = Some room <-> m !! k = Some room /\ room <> [].
Proof.
  rewrite lookup_foldr_delete_Some, elem_of_toDelete. split.
  - intros [Hn Hl]. split; [done|]. congruence.
  - intros [Hl Hn]. split; [congruence | done].
Qed.

(** ** What each function of the server does *)

Lemma broadcast_peers_run message peers s :
  broadcast_peers message peers s = (Normal tt, s, deliveries s message peers).
Proof.
  induction peers as [|peer rest IH]; [done|].
  cbn [broadcast_peers]. mrun. unfold deliveries in *. cbn.
  destruct (clients s !! peer) as [c|]; cbn; rewrite IH; done.
Qed.

Lemma broadcast_run message roomId s :
  broadcast message roomId s =
  (Normal tt, s, from_option (deliveries s message) [] (rooms s !! roomId)).
Proof.
  unfold broadcast. mrun. cbn.
  destruct (rooms s !! roomId) as [peers|]; cbn; [|done].
  by rewrite broadcast_peers_run.
Qed.

Lemma broadcastPeerList_run roomId s :
  broadcastPeerList roomId s = (Normal tt, s, peerListUpdate s roomId).
Proof.
  unfold broadcastPeerList, peerListUpdate. mrun. cbn.
  destruct (rooms s !! roomId) as [peers|] eqn:E; cbn; [|done].
  destruct (roomIdToCode s !! roomId) as [code|]; cbn; [|done].
  rewrite broadcast_run, E. done.
Qed.

Lemma createRoom_taken id senderId roomCode sock s :
  is_Some (roomCodeToId s !! roomCode) ->
  createRoom id senderId roomCode sock s
  = (Normal tt, s, [Send sock (roomAlreadyExists roomCode senderId)]).
Proof.
  intros H. unfold createRoom. mrun. cbn. by rewrite bool_decide_eq_true_2.
Qed.

Lemma createRoom_free id senderId roomCode sock s :
  roomCodeToId s !! roomCode = None ->
  let s' := with_room id [senderId] senderId (with_mapping id roomCode s) in
  createRoom id senderId roomCode sock s = (Normal tt, s', peerListUpdate s' id).
Proof.
  intros H. unfold createRoom. mrun. cbn.
  rewrite bool_decide_eq_false_2 by (rewrite H; by intros []).
  unfold addRoom, set_client_roomId. mrun. cbn.
  rewrite broadcastPeerList_run. done.
Qed.

Lemma joinRoomById_run roomId clientId peers s :
  rooms s !! roomId = Some peers ->
  let s' := with_room roomId (peers ++ [clientId]) clientId s in
  joinRoomById roomId clientId s = (Normal tt, s', peerListUpdate s' roomId).
Proof.
  intros H. unfold joinRoomById, set_client_roomId. mrun. cbn. rewrite H. cbn.
  rewrite broadcastPeerList_run. done.
Qed.

Lemma joinRoomById_throws roomId clientId s :
  rooms s !! roomId = None ->
  exists e, joinRoomById roomId clientId s = (Thrown e, s, []).
Proof.
  intros H. unfold joinRoomById. mrun. cbn. rewrite H. eauto.
Qed.

Lemma joinRoom_unknown senderId roomCode sock s :
  roomCodeToId s !! roomCode = None ->
  joinRoom senderId roomCode sock s
  = (Normal tt, s, [Send sock (roomNotFound roomCode senderId)]).
Proof. intros H. unfold joinRoom. mrun. cbn. by rewrite H. Qed.

Lemma joinRoom_known senderId roomCode sock id s :
  roomCodeToId s !! roomCode = Some id ->
  joinRoom senderId roomCode sock s = joinRoomById id senderId s.
Proof. intros H. unfold joinRoom. by rewrite gets_bind, H. Qed.

(** A code whose room is gone: the call raises before it writes anything. *)
Lemma joinRoom_stale senderId roomCode sock id s :
  roomCodeToId s !! roomCode = Some id ->
  rooms s !! id = None ->
  exists e, joinRoom senderId roomCode sock s = (Thrown e, s, []).
Proof.
  intros Hid Hr. rewrite (joinRoom_known _ _ _ id) by done.
  by apply joinRoomById_throws.
Qed.

Lemma joinOrCreateRoom_existing random senderId roomId peers s :
  rooms s !! roomId = Some peers ->
  joinOrCreateRoom random senderId roomId s = joinRoomById roomId senderId s.
Proof.
  intros H. unfold joinOrCreateRoom. rewrite gets_bind.
  rewrite bool_decide_eq_true_2 by eauto. mrun.
  destruct (joinRoomById roomId senderId s) as [[[]]]; done.
Qed.

Lemma joinOrCreateRoom_new random senderId roomId s :
  rooms s !! roomId = None ->
  let s' := with_room roomId [senderId] senderId
              (with_mapping roomId (generateRoomCode random) s) in
  joinOrCreateRoom random senderId roomId s = (Normal tt, s', peerListUpdate s' roomId).
Proof.
  intros H. unfold joinOrCreateRoom. mrun. cbn.
  rewrite bool_decide_eq_false_2 by (rewrite H; by intros []).
  unfold addRoom. mrun. cbn.
  erewrite joinRoomById_run by (cbn; apply lookup_insert_eq).
  cbn. unfold with_room, with_mapping, set_rooms, set_clients. cbn.
  rewrite insert_insert_eq. done.
Qed.

Lemma leaveRoom_run senderId client roomCode room s :
  roomId client = Some roomCode ->
  rooms s !! roomCode = Some room ->
  let room' := splice room (indexOf room senderId) 1 in
  let s' := after_leaveRoom roomCode room' s in
  leaveRoom senderId client s
  = (Normal tt, s',
     if bool_decide (length room' = 0%nat) then [] else peerListUpdate s' roomCode).
Proof.
  intros Hc Hr. unfold leaveRoom, after_leaveRoom. rewrite Hc. mrun. cbn.
  rewrite Hr. cbn. case_bool_decide; cbn.
  - unfold set_rooms; cbn. by rewrite delete_insert_eq.
  - by rewrite broadcastPeerList_run.
Qed.

Lemma leaveRoom_no_room senderId client s :
  roomId client = None
  \/ (exists roomCode, roomId client = Some roomCode /\ rooms s !! roomCode = None) ->
  leaveRoom senderId client s = (Normal tt, s, []).
Proof.
  unfold leaveRoom. intros [->|(roomCode & -> & H)]; [done|].
  by rewrite gets_bind, H.
Qed.

Lemma removeClient_run clientId ip s :
  removeClient clientId (Some ip) s = (Normal tt, after_removeClient clientId ip s, []).
Proof.
  unfold removeClient, after_removeClient. mrun. cbn.
  destruct (_ <=? 0); done.
Qed.

(** The cleanup writes to no socket. *)
Lemma removeClient_outputs clientId ip s : outputs (removeClient clientId ip s) = [].
Proof. destruct ip; [by rewrite removeClient_run | done]. Qed.

Lemma checkConnectionCount_admits sock ip s :
  default 0 (connectionCounts s !! ip) <= MaxConnectionsPerIp ->
  checkConnectionCount sock (Some ip) s
  = (Normal true,
     set_connectionCounts <[ip := default 0 (connectionCounts s !! ip) + 1]> s, []).
Proof.
  intros H. unfold checkConnectionCount. rewrite gets_bind.
  destruct (Z.gtb_spec (default 0 (connectionCounts s !! ip)) MaxConnectionsPerIp);
    [lia | done].
Qed.

Lemma checkConnectionCount_rejects sock ip s :
  MaxConnectionsPerIp < default 0 (connectionCounts s !! ip) ->
  checkConnectionCount sock (Some ip) s
  = (Normal false, s,
     [Close sock CustomCloseCodes.TOO_MANY_CONNECTIONS "Too many connections."]).
Proof.
  intros H. unfold checkConnectionCount. rewrite gets_bind.
  destruct (Z.gtb_spec (default 0 (connectionCounts s !! ip)) MaxConnectionsPerIp);
    [done | lia].
Qed.

Lemma onConnection_rooms sock ip clientId s :
  let s' := state (onConnection sock ip clientId s) in
  rooms s' = rooms s /\ roomCodeToId s' = roomCodeToId s
  /\ roomIdToCode s' = roomIdToCode s.
Proof.
  unfold onConnection, checkConnectionCount. destruct ip as [ip|]; mrun; cbn; [|done].
  destruct (_ >? _); cbn; done.
Qed.

(** [handleMessage] has one of the four effects. *)
Lemma handleMessage_effect entropy message sock s :
  Effect s message (state (handleMessage entropy message sock s)).
Proof.
  unfold handleMessage. rewrite gets_bind.
  destruct (clients s !! senderId message) as [sender|]; [|constructor].
  destruct message as [t f o|t f a|t f c|t f i|t f l rc ri|f code|f code|f rid|f|t msg].
  1-3: unfold forwardMessage; rewrite gets_bind;
       match goal with |- context [clients ?s0 !! ?k] => destruct (clients s0 !! k) end;
       constructor.
  1,2,7: constructor.
  - destruct (roomCodeToId s !! code) as [id|] eqn:E.
    + rewrite createRoom_taken by eauto. constructor.
    + rewrite createRoom_free by done.
      apply (effect_open s (SignalingCreateRoom f code)). by left.
  - destruct (roomCodeToId s !! code) as [id|] eqn:E.
    + rewrite (joinRoom_known _ _ _ id) by done.
      destruct (rooms s !! id) as [peers|] eqn:Er.
      * rewrite (joinRoomById_run _ _ peers) by done.
        apply (effect_join s (SignalingJoinRoom f code)); [by left | done].
      * destruct (joinRoomById_throws id f s Er) as [e ->]. constructor.
    + rewrite joinRoom_unknown by done. constructor.
  - destruct (rooms s !! rid) as [peers|] eqn:Er.
    + rewrite (joinOrCreateRoom_existing _ _ _ peers), (joinRoomById_run _ _ peers) by done.
      apply (effect_join s (SignalingJoinOrCreateRoom f rid)); [by right | done].
    + rewrite joinOrCreateRoom_new by done.
      apply (effect_open s (SignalingJoinOrCreateRoom f rid)). by right.
  - destruct (roomId sender) as [roomCode|] eqn:Ec.
    2:{ rewrite leaveRoom_no_room by eauto. constructor. }
    destruct (rooms s !! roomCode) as [room|] eqn:Er.
    2:{ rewrite leaveRoom_no_room by eauto. constructor. }
    rewrite (leaveRoom_run _ _ roomCode room) by done.
    by apply (effect_leave s (SignalingLeaveRoom f)).
Qed.

(** ** Peer-list broadcasts after a join and after a leave *)

Lemma deliveries_reach s message peers peer c :
  peer ∈ peers -> clients s !! peer = Some c ->
  Send (socket c) message ∈ deliveries s message peers.
Proof.
  intros Hin Hc. unfold deliveries. apply list_elem_of_omap.
  exists peer. by rewrite Hc.
Qed.


(** X27.  [LeaveRoom] from a registered sender whose recorded room exists
    and is not emptied by the splice: the room keeps the spliced list, and
    that list, with the room's code and id, is written once for each of its
    registered members. *)
Lemma leave_is_broadcast entropy sender client roomCode code room sock s :
  clients s !! sender = Some client ->
  roomId client = Some roomCode ->
  rooms s !! roomCode = Some room ->
  roomIdToCode s !! roomCode = Some code ->
  let room' := splice room (indexOf room sender) 1 in
  room' <> [] ->
  let s' := set_rooms <[roomCode := room']> s in
  handleMessage entropy (SignalingLeaveRoom sender) sock s
  = (Normal tt, s', deliveries s' (SignalingPeerList "" "" room' code roomCode) room').
Proof.
  intros Hc Hrid Hr Hcode room' Hne. unfold handleMessage. rewrite gets_bind.
  cbn [senderId]. rewrite Hc, (leaveRoom_run _ _ roomCode room) by done.
  fold room'. unfold after_leaveRoom.
  rewrite bool_decide_eq_false_2 by (by destruct room').
  cbn zeta. do 2 f_equal. unfold peerListUpdate. cbn.
  by rewrite lookup_insert_eq, Hcode.
Qed.

(** ** Rooms are never empty *)

Lemma rooms_nonempty_effect s message s' :
  rooms_nonempty s -> Effect s message s' -> rooms_nonempty s'.
Proof.
  unfold rooms_nonempty. intros Hs [].
  - done.
  - cbn. apply map_Forall_insert_2; done.
  - cbn. apply map_Forall_insert_2; [|done]. by destruct peers.
  - unfold after_leaveRoom. case_bool_decide as Hl; cbn.
    + by apply map_Forall_delete.
    + apply map_Forall_insert_2; [|done]. intros Hnil. by rewrite Hnil in Hl.
Qed.

Lemma rooms_nonempty_perform op s :
  rooms_nonempty s -> rooms_nonempty (state (perform op s)).
Proof.
  intros Hs. destruct op as [sock ip cid|entropy message sock|cid [ip|]]; cbn [perform].
  - unfold rooms_nonempty.
    pose proof (onConnection_rooms sock ip cid s) as [Hr _]. cbn in Hr.
    unfold mbind, M_bind, mret, M_ret. unfold state in *.
    destruct (onConnection sock ip cid s) as [[[b|e] s1] o1]; cbn in *; by rewrite Hr.
  - eapply rooms_nonempty_effect; [done | apply handleMessage_effect].
  - rewrite removeClient_run. intros rid room Hl. cbn in Hl.
    by apply lookup_close_empty in Hl as [_ ?].
  - done.
Qed.

Lemma rooms_nonempty_run ops s :
  rooms_nonempty s -> rooms_nonempty (run ops s).1.
Proof.
  revert s. induction ops as [|op rest IH]; intros s Hs; cbn [run]; [done|].
  specialize (IH _ (rooms_nonempty_perform op s Hs)).
  by destruct (run rest (state (perform op s))).
Qed.

(** ** The event loop only performs operations *)

Section EventLoopFacts.
Context {wire : Type}.
Variable JSON_parse : wire -> option SignalingContent.
Variable byteLength : wire -> Z.

Lemma handleMessages_ops entropy i messages sock s :
  exists ops, state (handleMessages entropy i messages sock s) = (run ops s).1.
Proof.
  revert i s. induction messages as [|message rest IH]; intros i s.
  - by exists [].
  - cbn [handleMessages]. unfold mbind, M_bind.
    destruct (handleMessage (entropy i) message sock s) as [[[[]|e] s1] o1] eqn:E.
    + destruct (IH (S i) s1) as [ops Hops].
      exists (Dispatch (entropy i) message sock :: ops). cbn [run perform].
      rewrite E. unfold state in *. cbn.
      destruct (handleMessages entropy (S i) rest sock s1) as [[? ?] ?].
      destruct (run ops s1). cbn in *. done.
    + exists [Dispatch (entropy i) message sock]. cbn [run perform]. by rewrite E.
Qed.

Lemma step_ops ev sys :
  exists ops, server (step JSON_parse byteLength ev sys).1 = (run ops (server sys)).1.
Proof.
  destruct ev as [sock ip uuid now|sock now entropy buffer|sock ip]; cbn [step].
  - exists [Connect sock ip uuid]. cbn. unfold mbind, M_bind, state.
    by destruct (onConnection sock ip uuid (server sys)) as [[[?|?] ?] ?].
  - destruct (connections sys !! sock) as [c|]; [|by exists []].
    unfold onMessage. destruct (rateGate now (window c)) as [w [|]]; cbn.
    2:{ by exists []. }
    unfold processFrame, checkMessageSize.
    match goal with |- context [if ?b then _ else _] => destruct b end.
    { by exists []. }
    unfold mbind at 1, M_bind, mret, M_ret. cbn.
    destruct (parseMessage JSON_parse buffer) as [e|messages].
    { by exists []. }
    destruct (handleMessages_ops entropy 0 messages sock (server sys)) as [ops Hops].
    exists ops. rewrite <- Hops. unfold state.
    by destruct (handleMessages entropy 0 messages sock (server sys)) as [[? ?] ?].
  - destruct (connections sys !! sock) as [c|]; [|by exists []].
    by exists [Disconnect (clientId c) ip].
Qed.

Lemma process_ops evs sys :
  exists ops, server (process JSON_parse byteLength evs sys).1 = (run ops (server sys)).1.
Proof.
  revert sys. induction evs as [|ev rest IH]; intros sys; [by exists []|].
  cbn [process]. destruct (step_ops ev sys) as [ops1 H1].
  destruct (step JSON_parse byteLength ev sys) as [sys1 out1].
  destruct (IH sys1) as [ops2 H2].
  destruct (process JSON_parse byteLength rest sys1) as [sys2 out2]. cbn in *.
  exists (ops1 ++ ops2). by rewrite run_app, <- H1.
Qed.

(** X29.  Whatever connection, frame and close events the transport
    delivers, with frames of any size and content at any times, no room of
    the server is empty after them. *)
Corollary rooms_nonempty_event_loop evs :
  rooms_nonempty (server (process JSON_parse byteLength evs boot).1).
Proof.
  destruct (process_ops evs boot) as [ops ->]. apply rooms_nonempty_run.
  apply map_Forall_empty.
Qed.
End EventLoopFacts.

(** ** One room per connection *)

Lemma unique_shrink (m m' : gmap string (list string)) :
  unique_in m ->
  (forall k room', m' !! k = Some room' ->
     exists room, m !! k = Some room /\ sublist room' room) ->
  unique_in m'.
Proof.
  intros [Hnd Hone] Hsub. split.
  - intros rid room' (room & Hl & Hs)%Hsub. eapply sublist_NoDup; eauto.
  - intros r1 r2 l1 l2 x (k1 & H1 & S1)%Hsub (k2 & H2 & S2)%Hsub Hx1 Hx2.
    eapply Hone; eauto using elem_of_sublist.
Qed.

Lemma unique_enter (m : gmap string (list string)) rid base x :
  unique_in m ->
  (forall k room, m !! k = Some room -> x ∉ room) ->
  base = [] \/ m !! rid = Some base ->
  unique_in (<[rid := base ++ [x]]> m).
Proof.
  intros [Hnd Hone] Hx Hbase.
  assert (NoDup base /\ x ∉ base) as [Hb Hxb].
  { destruct Hbase as [->|Hl]; [split; [constructor | apply not_elem_of_nil] | eauto]. }
  assert (forall k room y, k <> rid -> m !! k = Some room -> y ∈ room -> y ∉ base ++ [x])
    as Hfar.
  { intros k room y Hk Hl Hy [Hin | ->%list_elem_of_singleton]%elem_of_app.
    - destruct Hbase as [->|Hl']; [by apply elem_of_nil in Hin|].
      by apply Hk, (Hone k rid room base y).
    - by apply (Hx k room). }
  split.
  - intros k room. rewrite lookup_insert. case_decide; [|by eauto].
    intros [= <-]. apply NoDup_app. split_and!; [done | | apply NoDup_singleton].
    intros y Hy ->%list_elem_of_singleton. done.
  - intros r1 r2 l1 l2 y. rewrite !lookup_insert.
    repeat case_decide; subst; try done.
    + intros [= <-] H2 Hy1 Hy2. by destruct (Hfar r2 l2 y).
    + intros H1 [= <-] Hy1 Hy2. by destruct (Hfar r1 l1 y).
    + eauto.
Qed.

Lemma in_some_room_false s x :
  in_some_room s x = false -> forall k room, rooms s !! k = Some room -> x ∉ room.
Proof.
  unfold in_some_room. intros H%bool_decide_eq_false k room Hl Hx.
  apply H. by exists k, room.
Qed.

Lemma members_unique_effect s message s' :
  members_unique s ->
  (joins message -> in_some_room s (senderId message) = false) ->
  Effect s message s' -> members_unique s'.
Proof.
  unfold members_unique, joins. intros Hs Hout [].
  - done.
  - cbn. apply (unique_enter _ _ []); [done | | by left].
    apply in_some_room_false, Hout. tauto.
  - cbn. apply unique_enter; [done | | by right].
    apply in_some_room_false, Hout. tauto.
  - eapply unique_shrink; [exact Hs|].
    intros k room'. unfold after_leaveRoom. case_bool_decide; cbn.
    + intros [_ Hl]%lookup_delete_Some. eauto.
    + rewrite lookup_insert. case_decide as Hk.
      * intros [= <-]. subst. eauto using splice_sublist.
      * eauto.
Qed.

Lemma members_unique_perform op s :
  members_unique s -> allowed s op = true -> members_unique (state (perform op s)).
Proof.
  intros Hs Hop. destruct op as [sock ip cid|entropy message sock|cid [ip|]]; cbn [perform].
  - unfold members_unique.
    pose proof (onConnection_rooms sock ip cid s) as [Hr _]. cbn in Hr.
    unfold mbind, M_bind, mret, M_ret. unfold state in *.
    destruct (onConnection sock ip cid s) as [[[b|e] s1] o1]; cbn in *; by rewrite Hr.
  - eapply members_unique_effect; [done | | apply handleMessage_effect].
    intros Hj. cbn in Hop. unfold joins in Hj.
    destruct message; cbn in Hop, Hj |- *;
      first [ by apply negb_true_iff in Hop | by destruct Hj as [?|[?|?]] ].
  - rewrite removeClient_run. eapply unique_shrink; [exact Hs|].
    intros k room' [Hl _]%lookup_close_empty.
    rewrite lookup_fmap in Hl. destruct (rooms s !! k) as [room|]; [|done].
    injection Hl as <-. eauto using remove_from_room_sublist.
  - done.
Qed.

Lemma members_unique_run ops s :
  members_unique s -> disciplined ops s = true -> members_unique (run ops s).1.
Proof.
  revert s. induction ops as [|op rest IH]; intros s Hs Hd; cbn [run]; [done|].
  cbn [disciplined] in Hd. apply andb_true_iff in Hd as [Hop Hd].
  specialize (IH _ (members_unique_perform op s Hs Hop) Hd).
  by destruct (run rest (state (perform op s))).
Qed.


(** ** The code maps only grow *)

Lemma mappings_kept_effect s message s' code id :
  Effect s message s' ->
  (roomCodeToId s !! code = Some id -> is_Some (roomCodeToId s' !! code)) /\
  (roomIdToCode s !! id = Some code -> is_Some (roomIdToCode s' !! id)).
Proof.
  intros []; cbn; try (split; eauto; fail).
  - rewrite !lookup_insert. split; intros; case_decide; eauto.
  - unfold after_leaveRoom. case_bool_decide; cbn; eauto.
Qed.

(** No operation takes a code or a room id out of the two code maps. *)
Lemma mappings_kept op s code id :
  let s' := state (perform op s) in
  (roomCodeToId s !! code = Some id -> is_Some (roomCodeToId s' !! code)) /\
  (roomIdToCode s !! id = Some code -> is_Some (roomIdToCode s' !! id)).
Proof.
  destruct op as [sock ip cid|entropy message sock|cid [ip|]]; cbn [perform].
  - pose proof (onConnection_rooms sock ip cid s) as (_ & H1 & H2). cbn in H1, H2.
    unfold mbind, M_bind, mret, M_ret. unfold state in *.
    destruct (onConnection sock ip cid s) as [[[b|e] s1] o1]; cbn in *;
      rewrite H1, H2; eauto.
  - apply mappings_kept_effect with message, handleMessage_effect.
  - rewrite removeClient_run. cbn. eauto.
  - cbn. eauto.
Qed.

(** ** The rate gate *)

Lemma rateGate_expired now w :
  resetAt w < now -> rateGate now w = ({| messageCount := 1; resetAt := now |}, true).
Proof.
  intros H. unfold rateGate. destruct (Z.gtb_spec now (resetAt w)); [done | lia].
Qed.

Lemma rateGate_within now w :
  now <= resetAt w ->
  rateGate now w =
  if messageCount w >? MaxMessagesPerSeconds then (w, false)
  else ({| messageCount := messageCount w + 1; resetAt := resetAt w |}, true).
Proof.
  intros H. unfold rateGate. destruct (Z.gtb_spec now (resetAt w)); [lia | done].
Qed.

(** X28.  Frames that arrive at distinct, increasing times after the
    window's expiry all pass, however many they are. *)
Lemma gate_frames_spaced times w :
  StronglySorted Z.lt (resetAt w :: times) ->
  gate_frames times w = replicate (length times) true.
Proof.
  revert w. induction times as [|now rest IH]; intros w Hs; [done|].
  apply StronglySorted_inv in Hs as [Hs Hall].
  cbn [gate_frames]. rewrite rateGate_expired by (by apply Forall_cons in Hall as [? _]).
  cbn. f_equal. by apply IH.
Qed.

(* ===================================================================== *)
(** * The claims of the specification                                     *)
(* ===================================================================== *)

(** ** Membership changes and peer-list broadcasts *)

(** C1 (the code departs from it).  The specification has the disconnect
    cleanup send the updated peer list to the members that remain.  With
    [a] and [b] in room [room-1], when [b] disconnects [removeClient] takes
    [b] out of the room and [a] stays registered, but nothing is written to
    any socket; the same departure by a [LeaveRoom] message does send [a]
    the list [[a]].  In general [removeClient] never writes
    ([removeClient_outputs]), while joins and leaves do broadcast
    ([join_is_broadcast], [leave_is_broadcast]). *)
Theorem disconnect_sends_no_peer_list :
  let s := (run a_and_b_in_room initial).1 in
  let r := removeClient "b" (Some address) s in
  rooms s !! "room-1" = Some ["a"; "b"] /\
  rooms (state r) !! "room-1" = Some ["a"] /\
  is_Some (clients (state r) !! "a") /\
  outputs r = [] /\
  outputs (handleMessage entropy0 (SignalingLeaveRoom "b") 2 s)
  = [Send 1 (SignalingPeerList "" "" ["a"] "AB12" "room-1")].
Proof. vm_compute. split_and!; try reflexivity. eexists; reflexivity. Qed.

(** ** The code maps *)

(** C2 (the code departs from it).  The specification has both directions
    of a room's code mapping removed with the room.  After [a] creates room
    [AB12] and leaves it, or disconnects, the room is gone from [rooms] but
    [roomCodeToId] and [roomIdToCode] still hold the pair: a new
    [createRoom] with the same code is answered "already exists", and a
    [joinRoom] with it raises on the missing room.  No operation ever
    removes a mapping ([mappings_kept]). *)
Theorem mapping_outlives_room :
  let s := (run a_alone_in_room initial).1 in
  let left := state (handleMessage entropy0 (SignalingLeaveRoom "a") 1 s) in
  let gone := state (removeClient "a" (Some address) s) in
  (rooms left !! "room-1" = None /\
   roomCodeToId left !! "AB12" = Some "room-1" /\
   roomIdToCode left !! "room-1" = Some "AB12" /\
   createRoom "room-2" "a" "AB12" 1 left
   = (Normal tt, left, [Send 1 (SignalingError "a" "Room AB12 already exists.")]) /\
   completion (joinRoom "a" "AB12" 1 left)
   = Thrown (TypeError "Cannot read properties of undefined (reading 'push')")) /\
  (rooms gone !! "room-1" = None /\
   roomCodeToId gone !! "AB12" = Some "room-1" /\
   roomIdToCode gone !! "room-1" = Some "AB12").
Proof. vm_compute. split_and!; reflexivity. Qed.

(** ** One room per connection *)

(** C3, as stated, fails: a connection that sends [JoinRoom] for the room
    it created is listed twice in it. *)
Lemma member_listed_twice : ~ members_unique (run joins_twice initial).1.
Proof.
  intros [Hnd _]. specialize (Hnd "room-1" ["a"; "a"]).
  assert (NoDup ["a"; "a"]) as Hd by (apply Hnd; vm_compute; reflexivity).
  apply NoDup_cons in Hd as [Hd _]. apply Hd. by left.
Qed.

(** Likewise a connection that creates a second room is listed by both. *)
Example member_of_two_rooms :
  let s := (run opens_second_room initial).1 in
  rooms s !! "room-1" = Some ["a"] /\ rooms s !! "room-2" = Some ["a"].
Proof. vm_compute. split; reflexivity. Qed.

(** C3 (amended).  In every state reached from the empty server by a
    sequence of operations in which create, join and join-or-create are
    only sent for a sender that no room lists at that moment, no room lists
    an id twice and no id is listed by two rooms. *)
Theorem one_room_per_connection ops :
  disciplined ops initial = true -> members_unique (run ops initial).1.
Proof.
  apply members_unique_run. split; intros *; cbn; by rewrite lookup_empty.
Qed.

Lemma one_room_per_connection_witness :
  disciplined come_and_go initial = true /\ members_unique (run come_and_go initial).1.
Proof.
  split; [vm_compute; reflexivity|].
  apply one_room_per_connection. vm_compute; reflexivity.
Defined.

(** ** The rate gate *)

(** C4 (the code departs from it).  The specification closes a connection
    that sends more than 20 frames within one second.  A connection
    accepted at time 0 that sends 30 frames at 1001, 1002, ..., 1030 ms has
    all of them pass: once the first window has expired the handler sets
    [resetAt] to [now], not [now + 1000], so every later millisecond starts
    a new window ([gate_frames_spaced]).  Within the first window the count
    is tested before it is incremented: 21 frames pass and the 22nd is the
    first one refused. *)
Theorem frames_after_first_window_never_limited :
  gate_frames (seqZ 1001 30) (opened_at 0) = replicate 30 true /\
  gate_frames (replicate 21 500) (opened_at 0) = replicate 21 true /\
  gate_frames (replicate 22 500) (opened_at 0) = replicate 21 true ++ [false].
Proof. vm_compute. split_and!; reflexivity. Qed.

(** ** Admission *)

(** C5 (the code departs from it).  The specification rejects a connection
    from an address that has [MaxConnectionsPerIp] (10) connections open.
    With ten connections open the eleventh attempt is admitted and counted;
    the twelfth is the first one rejected.  After one of ten closes, two
    further attempts are admitted, not one.  The test is
    [count > MaxConnectionsPerIp] on the count before the new connection
    ([checkConnectionCount_admits], [checkConnectionCount_rejects]). *)
Theorem eleventh_connection_admitted :
  let s := (run (connections_from address 0 10) initial).1 in
  let r := onConnection 10 (Some address) "client-10" s in
  connectionCounts s !! address = Some 10 /\
  completion r = Normal true /\
  connectionCounts (state r) !! address = Some 11 /\
  outputs r = [Send 10 (SignalingClientId "client-10" "" "client-10")] /\
  outputs (onConnection 11 (Some address) "client-11" (state r))
  = [Close 11 CustomCloseCodes.TOO_MANY_CONNECTIONS "Too many connections."] /\
  (let s9 := state (removeClient "client-0" (Some address) s) in
   connectionCounts s9 !! address = Some 9 /\
   connectionCounts (run (connections_from address 10 2) s9).1 !! address = Some 11).
Proof. vm_compute. split_and!; reflexivity. Qed.

(** ** Application errors *)



(** ** Rooms are never empty *)

(** C7.  After any sequence of connection attempts, dispatched messages
    and disconnect cleanups, starting from the empty server, every room in
    [rooms] has at least one member. *)
Theorem rooms_never_empty ops : rooms_nonempty (run ops initial).1.
Proof. apply rooms_nonempty_run, map_Forall_empty. Qed.

(** ** The codec *)

Section RoundTrip.
Context {wire : Type}.
Variable JSON_stringify : SignalingContent -> wire.
Variable JSON_parse : wire -> option SignalingContent.
Hypothesis JSON_parse_stringify :
  forall content, JSON_parse (JSON_stringify content) = Some content.

Lemma dispatch_toContent m : valid m -> dispatch_content (toContent m) = inr m.
Proof.
  destruct m as [t f o|t f a|t f c|t f i|t f l rc ri|f code|f code|f rid|f|t msg];
    cbn; try done.
  all: intros Hv; unfold SignalingOffer_fromContent, SignalingAnswer_fromContent,
    SignalingIceCandidate_fromContent; cbn.
  - by destruct o.
  - by destruct a.
  - by destruct c.
Qed.

(** C8.  Given that the platform's [JSON.parse] undoes its
    [JSON.stringify], decoding the encoding of a valid message of any of
    the ten variants gives the message back, equal in every field. *)
Theorem fromJson_toJson m :
  valid m -> fromJson JSON_parse (toJson JSON_stringify m) = inr m.
Proof.
  intros Hv. unfold fromJson, toJson. rewrite JSON_parse_stringify.
  by apply dispatch_toContent.
Qed.

(** A frame of several buffers decodes to the messages in frame order. *)
Lemma parseMessage_batch ms :
  Forall valid ms ->
  parseMessage JSON_parse (Buffers (toJson JSON_stringify <$> ms)) = inr ms.
Proof.
  cbn. induction 1 as [|m ms Hm _ IH]; cbn; [done|].
  by rewrite fromJson_toJson, IH.
Qed.
End RoundTrip.

Lemma fromJson_toJson_witness :
  fromJson (wire := SignalingContent) Some (toJson id an_offer) = inr an_offer.
Proof. apply (fromJson_toJson id Some); [reflexivity | discriminate]. Defined.

(** ** A leave by a connection its room does not list *)

(** C9.  When the sender's recorded room exists, has members and does not
    list the sender, [LeaveRoom] takes the last member out of that room:
    the room is left with all but its last member, or is deleted if that
    was its only one.  It is never left as it was. *)
Theorem leaveRoom_of_non_member_drops_last entropy sender client roomCode room sock s :
  clients s !! sender = Some client ->
  roomId client = Some roomCode ->
  rooms s !! roomCode = Some room ->
  room <> [] ->
  sender ∉ room ->
  let s' := state (handleMessage entropy (SignalingLeaveRoom sender) sock s) in
  rooms s' = (if bool_decide (length room = 1%nat) then delete roomCode (rooms s)
              else <[roomCode := removelast room]> (rooms s))
  /\ rooms s' !! roomCode <> Some room.
Proof.
  intros Hc Hr Hl Hne Hnot s'.
  assert (rooms s' = if bool_decide (length room = 1%nat) then delete roomCode (rooms s)
                     else <[roomCode := removelast room]> (rooms s)) as ->.
  { subst s'. unfold handleMessage. rewrite gets_bind. cbn [senderId]. rewrite Hc.
    rewrite (leaveRoom_run _ _ roomCode room) by done. cbn.
    apply indexOf_absent in Hnot. rewrite Hnot, splice_last. unfold after_leaveRoom.
    destruct room as [|x room _] using rev_ind; [done|].
    rewrite removelast_last, length_app. cbn [length].
    destruct room as [|y rest]; cbn; [done|].
    repeat case_bool_decide; try done; lia. }
  split; [done|]. case_bool_decide.
  - by rewrite lookup_delete_eq.
  - rewrite lookup_insert_eq. intros [= Heq].
    destruct room as [|x room _] using rev_ind; [done|].
    rewrite removelast_last in Heq. apply (f_equal length) in Heq.
    rewrite length_app in Heq. cbn in Heq. lia.
Qed.

Lemma leaveRoom_of_non_member_drops_last_witness :
  let s := (run three_in_room_a_left initial).1 in
  rooms s !! "room-1" = Some ["b"; "c"] /\
  rooms (state (handleMessage entropy0 (SignalingLeaveRoom "a") 1 s)) !! "room-1"
  = Some ["b"].
Proof.
  intros s. split; [vm_compute; reflexivity|].
  destruct (leaveRoom_of_non_member_drops_last entropy0 "a"
              {| socket := 1; roomId := Some "room-1" |} "room-1" ["b"; "c"] 1%nat s)
    as [-> _].
  - vm_compute; reflexivity.
  - reflexivity.
  - vm_compute; reflexivity.
  - discriminate.
  - rewrite !not_elem_of_cons. split_and!; [discriminate.. | apply not_elem_of_nil].
  - cbn. apply lookup_insert_eq.
Defined.

(** ** Cleanup without an address *)

(** C10.  When [request.socket.remoteAddress] is absent at close time,
    [removeClient] returns at once: no map changes (the client stays in
    [clients], in its rooms, and in the count of its address) and nothing
    is written.  So the close handler of any socket, run with an absent
    address, leaves the server as it was. *)
Theorem removeClient_without_address :
  (forall clientId s, removeClient clientId None s = (Normal tt, s, [])) /\
  (forall (wire : Type) (JSON_parse : wire -> option SignalingContent)
          (byteLength : wire -> Z) sock sys,
      let r := step JSON_parse byteLength (Closed sock None) sys in
      server r.1 = server sys /\ r.2 = []).
Proof.
  split; [reflexivity|].
  intros wire JSON_parse byteLength sock sys. cbn [step].
  destruct (connections sys !! sock) as [c|]; by cbn.
Qed.

(* ===================================================================== *)
(** * Further properties of the code                                      *)
(* ===================================================================== *)

(** ** Decoding *)

Ltac unfold_fromContent :=
  unfold SignalingOffer_fromContent, SignalingAnswer_fromContent,
    SignalingIceCandidate_fromContent, SignalingClientId_fromContent,
    SignalingPeerList_fromContent, SignalingCreateRoom_fromContent,
    SignalingJoinRoom_fromContent, SignalingJoinOrCreateRoom_fromContent,
    SignalingLeaveRoom_fromContent, SignalingError_fromContent, type_differs.

(** Case analysis on every variable a [match] of the goal inspects. *)
Ltac case_scrutinee :=
  repeat match goal with
         | |- context [match ?x with _ => _ end] => is_var x; destruct x
         end.

(** Splits [dispatch_content] into its eleven branches, each with the
    [type] test of its [fromContent] already decided. *)
Ltac dispatch_cases content :=
  destruct content as [ty t s o ot a i c p rc ri em];
  unfold dispatch_content; unfold_fromContent; cbn;
  destruct ty as [[|q|q]|]; cbn -[bool_decide];
  [ | case_scrutinee; cbn -[bool_decide] | | ];
  rewrite ?bool_decide_eq_true_2 by done; cbn; unfold json_is_null.


Lemma dispatch_content_fields content m :
  dispatch_content content = inr m ->
  SignalingContent.type content = Some (SignalingMessageType.value (type m))
  /\ valid m
  /\ senderId m = match type m with
                  | SignalingMessageType.Error => ""
                  | _ => SignalingContent.senderId content
                  end
  /\ targetId m = match type m with
                  | SignalingMessageType.CreateRoom | SignalingMessageType.JoinRoom
                  | SignalingMessageType.JoinOrCreate | SignalingMessageType.LeaveRoom => ""
                  | _ => SignalingContent.targetId content
                  end.
Proof.
  dispatch_cases content.
  all: repeat case_match; intros [= <-]; cbn; try done.
Qed.

Section Decoding.
Context {wire : Type}.
Variable JSON_stringify : SignalingContent -> wire.
Variable JSON_parse : wire -> option SignalingContent.


(** X2.  A message that [fromJson] returns has the [type] written on the
    wire and a payload that is not [null].  It keeps the wire's [senderId]
    and [targetId], except that a decoded [Error] has an empty [senderId]
    and a decoded room request (create, join, join-or-create, leave) an
    empty [targetId], whatever the wire said. *)
Theorem fromJson_fields text m :
  fromJson JSON_parse text = inr m ->
  exists content,
    JSON_parse text = Some content
    /\ SignalingContent.type content = Some (SignalingMessageType.value (type m))
    /\ valid m
    /\ senderId m = match type m with
                    | SignalingMessageType.Error => ""
                    | _ => SignalingContent.senderId content
                    end
    /\ targetId m = match type m with
                    | SignalingMessageType.CreateRoom | SignalingMessageType.JoinRoom
                    | SignalingMessageType.JoinOrCreate | SignalingMessageType.LeaveRoom => ""
                    | _ => SignalingContent.targetId content
                    end.
Proof.
  unfold fromJson. destruct (JSON_parse text) as [content|]; [|done].
  intros H%dispatch_content_fields. by exists content.
Qed.

(** X3.  What the server decoded, it can send on: given that [JSON.parse]
    undoes [JSON.stringify], the encoding of a decoded message decodes to
    that same message. *)
Theorem decoded_message_reencodes text m :
  (forall content, JSON_parse (JSON_stringify content) = Some content) ->
  fromJson JSON_parse text = inr m ->
  fromJson JSON_parse (toJson JSON_stringify m) = inr m.
Proof.
  intros Hrt Hm. unfold fromJson in Hm.
  destruct (JSON_parse text) as [content|]; [|done].
  apply dispatch_content_fields in Hm as (_ & Hv & _).
  unfold fromJson, toJson. rewrite Hrt. by apply dispatch_toContent.
Qed.

(** X4.  An array of buffers decodes to one message per buffer, in the
    order of the buffers, exactly when every buffer decodes. *)
Theorem parseMessage_frame_order bs ms :
  parseMessage JSON_parse (Buffers bs) = inr ms <->
  Forall2 (fun b m => fromJson JSON_parse b = inr m) bs ms.
Proof.
  cbn [parseMessage]. revert ms. induction bs as [|b bs IH]; intros ms; cbn.
  - split; [intros [= <-]; constructor | by intros ->%Forall2_nil_inv_l].
  - destruct (fromJson JSON_parse b) as [e|m] eqn:Eb.
    + split; [done|]. intros (m & ms' & Hm & _ & _)%Forall2_cons_inv_l. congruence.
    + destruct (fromBuffers JSON_parse bs) as [e|ms'] eqn:Ebs.
      * split; [done|]. intros (m' & ms' & _ & Hms & _)%Forall2_cons_inv_l.
        apply IH in Hms. congruence.
      * split.
        -- intros [= <-]. constructor; [done|]. by apply IH.
        -- intros (m' & ms'' & Hm & Hms & ->)%Forall2_cons_inv_l.
           apply IH in Hms. congruence.
Qed.

(** X5.  When an array of buffers does not decode, the exception is that
    of the first buffer that fails, and all buffers before it decode. *)
Theorem parseMessage_first_failure bs e :
  parseMessage JSON_parse (Buffers bs) = inl e ->
  exists i b,
    bs !! i = Some b /\ fromJson JSON_parse b = inl e
    /\ forall j b', (j < i)%nat -> bs !! j = Some b' ->
                    exists m, fromJson JSON_parse b' = inr m.
Proof.
  cbn [parseMessage]. induction bs as [|b bs IH]; cbn; [done|].
  destruct (fromJson JSON_parse b) as [e'|m] eqn:Eb.
  - intros [= <-]. exists 0%nat, b. split_and!; [done..|]. intros j b' Hj. lia.
  - destruct (fromBuffers JSON_parse bs) as [e'|ms]; [|done].
    intros [= <-]. destruct (IH eq_refl) as (i & b0 & Hi & Hb0 & Hbefore).
    exists (S i), b0. split_and!; [done..|].
    intros [|j] b' Hj Hl; cbn in Hl.
    + injection Hl as <-. eauto.
    + apply (Hbefore j); [lia | done].
Qed.
End Decoding.


Lemma fromJson_fields_witness :
  exists content,
    Some create_with_target = Some content
    /\ SignalingContent.type content = Some 5
    /\ True
    /\ "a" = SignalingContent.senderId content
    /\ "" = "".
Proof. apply (fromJson_fields Some create_with_target (SignalingCreateRoom "a" "AB12")). reflexivity. Defined.

Lemma decoded_message_reencodes_witness :
  fromJson (wire := SignalingContent) Some (toJson id (SignalingCreateRoom "a" "AB12"))
  = inr (SignalingCreateRoom "a" "AB12").
Proof.
  apply (decoded_message_reencodes id Some create_with_target); reflexivity.
Defined.

Lemma parseMessage_first_failure_witness :
  exists i b,
    [create_with_target; untyped_content] !! i = Some b
    /\ fromJson Some b = inl (InvalidMessageException "Message type is required")
    /\ forall j b', (j < i)%nat ->
         [create_with_target; untyped_content] !! j = Some b' ->
         exists m, fromJson Some b' = inr m.
Proof.
  apply (parseMessage_first_failure Some [create_with_target; untyped_content]).
  reflexivity.
Defined.

(** ** Room codes *)

Lemma string_length_app s t :
  String.length (s +:+ t) = (String.length s + String.length t)%nat.
Proof. induction s as [|c s IH]; simpl; [done | by f_equal]. Qed.

Lemma string_get_snoc s c j c' :
  String.get j (s +:+ String c "") = Some c' -> String.get j s = Some c' \/ c' = c.
Proof.
  revert j. induction s as [|d s IH]; intros j; cbn.
  - destruct j; [intros [= <-]; by right | done].
  - destruct j; [by left | apply IH].
Qed.

Lemma charAt_in_range s n :
  (n < String.length s)%nat ->
  exists c, charAt s n = String c "" /\ String.get n s = Some c.
Proof.
  unfold charAt. revert n. induction s as [|d s IH]; intros n; cbn; [lia|].
  destruct n; [eauto|]. intros Hn. apply IH. lia.
Qed.

(** X6.  When every draw is an index of the alphabet, as
    [Math.floor(Math.random() * 36)] is, the generated code has exactly
    [RoomCodeLength] characters and each of them is a character of
    [RoomCodeCharacters]. *)
Theorem generateRoomCode_wellformed random :
  (forall i, (random i < String.length RoomCodeCharacters)%nat) ->
  String.length (generateRoomCode random) = RoomCodeLength
  /\ forall j c, String.get j (generateRoomCode random) = Some c ->
                 exists k, String.get k RoomCodeCharacters = Some c.
Proof.
  intros Hdraw. unfold generateRoomCode, RoomCodeLength. cbn [seq foldl].
  destruct (charAt_in_range _ _ (Hdraw 0%nat)) as (c0 & -> & H0).
  destruct (charAt_in_range _ _ (Hdraw 1%nat)) as (c1 & -> & H1).
  destruct (charAt_in_range _ _ (Hdraw 2%nat)) as (c2 & -> & H2).
  destruct (charAt_in_range _ _ (Hdraw 3%nat)) as (c3 & -> & H3).
  split; [by rewrite !string_length_app|].
  intros j c Hj.
  repeat (apply string_get_snoc in Hj as [Hj | ->]; [|eauto]).
  by destruct j.
Qed.

Lemma generateRoomCode_wellformed_witness :
  String.length (generateRoomCode (fun i => (7 * i mod 36)%nat)) = 4%nat
  /\ forall j c, String.get j (generateRoomCode (fun i => (7 * i mod 36)%nat)) = Some c ->
                 exists k, String.get k RoomCodeCharacters = Some c.
Proof.
  apply (generateRoomCode_wellformed (fun i => (7 * i mod 36)%nat)).
  intros i. change (String.length RoomCodeCharacters) with 36%nat.
  apply Nat.mod_upper_bound. discriminate.
Defined.

(** ** The dispatcher *)

(** X7.  An [Offer], [Answer] or [IceCandidate] from a registered sender is
    written unchanged to the socket registered under its [targetId], and to
    that socket only; when no client is registered under the [targetId]
    nothing is written.  Either way no map changes. *)
Theorem relay_is_verbatim entropy message sender sock s :
  clients s !! senderId message = Some sender ->
  type message = SignalingMessageType.Offer
  \/ type message = SignalingMessageType.Answer
  \/ type message = SignalingMessageType.IceCandidate ->
  handleMessage entropy message sock s
  = (Normal tt, s,
     match clients s !! targetId message with
     | Some target => [Send (socket target) message]
     | None => []
     end).
Proof.
  intros Hs Hty. unfold handleMessage. rewrite gets_bind, Hs.
  destruct message; cbn in Hty; try (by destruct Hty as [?|[?|?]]).
  all: unfold forwardMessage; rewrite gets_bind.
  all: by match goal with
          | |- context [clients ?s0 !! ?k] => destruct (clients s0 !! k)
          end.
Qed.

Lemma relay_is_verbatim_witness :
  handleMessage entropy0 an_offer 1 (run a_and_b_in_room initial).1
  = (Normal tt, (run a_and_b_in_room initial).1, [Send 2 an_offer]).
Proof.
  apply (relay_is_verbatim entropy0 an_offer {| socket := 1; roomId := Some "room-1" |}).
  - vm_compute; reflexivity.
  - by left.
Defined.

(** X8.  Messages whose [senderId] is not a registered client are dropped
    one after the other: a frame made of such messages writes nothing,
    closes nothing and changes no map, whatever the types of its messages. *)
Theorem unregistered_senders_are_ignored entropy i messages sock s :
  Forall (fun message => clients s !! senderId message = None) messages ->
  handleMessages entropy i messages sock s = (Normal tt, s, []).
Proof.
  intros Hall. revert i. induction Hall as [|message rest Hm _ IH]; intros i; [done|].
  cbn [handleMessages].
  assert (handleMessage (entropy i) message sock s = (Normal tt, s, [])) as Hone.
  { unfold handleMessage. by rewrite gets_bind, Hm. }
  unfold mbind, M_bind. by rewrite Hone, IH.
Qed.

Lemma unregistered_senders_are_ignored_witness :
  handleMessages (fun _ => entropy0) 0
    [SignalingError "a" "boom"; SignalingCreateRoom "z" "CD34"] 1
    (run a_and_b_in_room initial).1
  = (Normal tt, (run a_and_b_in_room initial).1, []).
Proof.
  apply unregistered_senders_are_ignored.
  repeat constructor; vm_compute; reflexivity.
Defined.



(** X10.  [CreateRoom] with a code that [roomCodeToId] does not hold, from
    a registered sender: the room is stored under the fresh id with the
    sender as its only member, the code and the id are mapped to each
    other, the sender's [roomId] becomes the id, and the peer list
    [[sender]] is written once, to the socket registered for the sender. *)
Theorem createRoom_opens_room entropy sender client roomCode sock s :
  clients s !! sender = Some client ->
  roomCodeToId s !! roomCode = None ->
  let id := uuid entropy in
  handleMessage entropy (SignalingCreateRoom sender roomCode) sock s
  = (Normal tt,
     {| connectionCounts := connectionCounts s;
        clients := <[sender := {| socket := socket client; roomId := Some id |}]> (clients s);
        rooms := <[id := [sender]]> (rooms s);
        roomCodeToId := <[roomCode := id]> (roomCodeToId s);
        roomIdToCode := <[id := roomCode]> (roomIdToCode s) |},
     [Send (socket client) (SignalingPeerList "" "" [sender] roomCode id)]).
Proof.
  intros Hc Hfree id. unfold handleMessage. rewrite gets_bind. cbn [senderId].
  rewrite Hc, createRoom_free by done. fold id. cbn zeta.
  unfold peerListUpdate, deliveries, with_room, with_mapping, set_clients, set_rooms,
    set_roomCodeToId, set_roomIdToCode. cbn.
  rewrite !lookup_insert_eq. cbn. rewrite lookup_alter_eq, Hc. cbn.
  by rewrite (alter_alt_Some _ _ _ client).
Qed.

Lemma createRoom_opens_room_witness :
  outputs (handleMessage {| uuid := "room-2"; random := fun i => i |}
             (SignalingCreateRoom "b" "CD34") 2 (run a_and_b_in_room initial).1)
  = [Send 2 (SignalingPeerList "" "" ["b"] "CD34" "room-2")].
Proof.
  rewrite (createRoom_opens_room {| uuid := "room-2"; random := fun i => i |} "b"
             {| socket := 2; roomId := Some "room-1" |}); [reflexivity|..];
    vm_compute; reflexivity.
Defined.

(** X11.  [JoinOrCreate] from a registered sender never raises and always
    ends with the sender appended to the room of the given id, which starts
    empty when it did not exist.  An existing room keeps its code; a new
    one gets the generated code, and that code is then mapped to the new
    room id whatever it was mapped to before. *)
Theorem joinOrCreate_appends_sender entropy sender client rid sock s :
  clients s !! sender = Some client ->
  let r := handleMessage entropy (SignalingJoinOrCreateRoom sender rid) sock s in
  let code := generateRoomCode (random entropy) in
  completion r = Normal tt
  /\ rooms (state r) = <[rid := default [] (rooms s !! rid) ++ [sender]]> (rooms s)
  /\ clients (state r)
     = <[sender := {| socket := socket client; roomId := Some rid |}]> (clients s)
  /\ (is_Some (rooms s !! rid) ->
      roomCodeToId (state r) = roomCodeToId s /\ roomIdToCode (state r) = roomIdToCode s)
  /\ (rooms s !! rid = None ->
      roomCodeToId (state r) = <[code := rid]> (roomCodeToId s)
      /\ roomIdToCode (state r) = <[rid := code]> (roomIdToCode s)).
Proof.
  intros Hc r code. subst r. unfold handleMessage. rewrite gets_bind. cbn [senderId].
  rewrite Hc. destruct (rooms s !! rid) as [peers|] eqn:Hr.
  - rewrite (joinOrCreateRoom_existing _ _ _ peers), (joinRoomById_run _ _ peers) by done.
    cbn. rewrite (alter_alt_Some _ _ _ client) by done.
    split_and!; [done..| |done]. by intros [??].
  - rewrite joinOrCreateRoom_new by done.
    cbn. rewrite (alter_alt_Some _ _ _ client) by done.
    split_and!; [done..| |done]. by intros [??].
Qed.

Lemma joinOrCreate_appends_sender_witness :
  rooms (state (handleMessage entropy0 (SignalingJoinOrCreateRoom "b" "room-1") 2
                  (run b_connected initial).1))
  = <["room-1" := ["a"; "b"]]> (rooms (run b_connected initial).1).
Proof.
  destruct (joinOrCreate_appends_sender entropy0 "b" {| socket := 2; roomId := None |}
              "room-1" 2%nat (run b_connected initial).1) as (_ & -> & _).
  - vm_compute; reflexivity.
  - replace (rooms (run b_connected initial).1 !! "room-1") with (Some ["a"])
      by (vm_compute; reflexivity).
    reflexivity.
Defined.

(** The position [indexOf] returns is the first one that holds the id. *)
Lemma indexOf_first room x j :
  (j < Z.to_nat (indexOf room x))%nat -> room !! j <> Some x.
Proof.
  revert j. induction room as [|y rest IH]; intros j; cbn [indexOf]; [cbn; lia|].
  destruct (decide (y = x)); [cbn; lia|].
  destruct (Z.ltb_spec (indexOf rest x) 0); [cbn; lia|].
  destruct j as [|j]; cbn; [congruence|].
  intros Hj. apply IH. lia.
Qed.

(** X12.  [LeaveRoom] from a sender that its recorded room lists takes out
    the first occurrence of the sender and nothing else: the other members
    keep their order, and the room is deleted when the sender was its only
    member.  The sender's own [roomId] is left as it was. *)
Theorem leaveRoom_of_member entropy sender client roomCode room sock s :
  clients s !! sender = Some client ->
  roomId client = Some roomCode ->
  rooms s !! roomCode = Some room ->
  sender ∈ room ->
  let i := Z.to_nat (indexOf room sender) in
  let r := handleMessage entropy (SignalingLeaveRoom sender) sock s in
  room !! i = Some sender
  /\ (forall j, (j < i)%nat -> room !! j <> Some sender)
  /\ completion r = Normal tt
  /\ rooms (state r) = (if bool_decide (length room = 1%nat) then delete roomCode (rooms s)
                        else <[roomCode := delete i room]> (rooms s))
  /\ clients (state r) = clients s.
Proof.
  intros Hc Hrid Hr Hin i r. destruct (indexOf_present _ _ Hin) as [H0 Hi].
  split_and!; [done | apply indexOf_first | ..].
  all: subst r; unfold handleMessage; rewrite gets_bind; cbn [senderId].
  all: rewrite Hc, (leaveRoom_run _ _ roomCode room) by done; cbn zeta.
  all: rewrite <- (Z2Nat.id (indexOf room sender)) at 1 by done.
  all: pose proof (lookup_lt_Some _ _ _ Hi) as Hlt; rewrite splice_at by done; fold i.
  all: unfold after_leaveRoom; rewrite length_delete by eauto.
  all: repeat case_bool_decide; try done; lia.
Qed.

Lemma leaveRoom_of_member_witness :
  rooms (state (handleMessage entropy0 (SignalingLeaveRoom "a") 1
                  (run a_and_b_in_room initial).1))
  = <["room-1" := ["b"]]> (rooms (run a_and_b_in_room initial).1).
Proof.
  destruct (leaveRoom_of_member entropy0 "a" {| socket := 1; roomId := Some "room-1" |}
              "room-1" ["a"; "b"] 1%nat (run a_and_b_in_room initial).1)
    as (_ & _ & _ & -> & _).
  - vm_compute; reflexivity.
  - reflexivity.
  - vm_compute; reflexivity.
  - by left.
  - reflexivity.
Defined.

(** ** Broadcasts *)

Lemma deliveries_registered s message peers :
  (forall p, p ∈ peers -> is_Some (clients s !! p)) ->
  Forall2 (fun p o => exists c, clients s !! p = Some c /\ o = Send (socket c) message)
          peers (deliveries s message peers).
Proof.
  unfold deliveries. induction peers as [|p peers IH]; intros Hreg; cbn; [constructor|].
  destruct (Hreg p) as [c Hc]; [by left|]. rewrite Hc. cbn.
  constructor; [eauto|]. apply IH. intros q Hq. apply Hreg. by right.
Qed.

(** X13.  When every member of a room is a registered client,
    [broadcastPeerList] writes exactly one message per member, in member
    order, each to that member's socket and each carrying the room's whole
    member list, its code and its id; it changes no map. *)
Theorem peer_list_reaches_every_member roomId peers code s :
  rooms s !! roomId = Some peers ->
  roomIdToCode s !! roomId = Some code ->
  (forall p, p ∈ peers -> is_Some (clients s !! p)) ->
  exists outs,
    broadcastPeerList roomId s = (Normal tt, s, outs)
    /\ Forall2 (fun p o => exists c, clients s !! p = Some c
                  /\ o = Send (socket c) (SignalingPeerList "" "" peers code roomId))
               peers outs.
Proof.
  intros Hr Hcode Hreg. rewrite broadcastPeerList_run. eexists. split; [done|].
  unfold peerListUpdate. rewrite Hr, Hcode. by apply deliveries_registered.
Qed.

Lemma peer_list_reaches_every_member_witness :
  exists outs,
    broadcastPeerList "room-1" (run a_and_b_in_room initial).1
    = (Normal tt, (run a_and_b_in_room initial).1, outs)
    /\ Forall2 (fun p o => exists c,
                  clients (run a_and_b_in_room initial).1 !! p = Some c
                  /\ o = Send (socket c) (SignalingPeerList "" "" ["a"; "b"] "AB12" "room-1"))
               ["a"; "b"] outs.
Proof.
  apply peer_list_reaches_every_member.
  - vm_compute; reflexivity.
  - vm_compute; reflexivity.
  - intros p [->|[->|[]%elem_of_nil]%elem_of_cons]%elem_of_cons;
      vm_compute; eexists; reflexivity.
Defined.


Lemma leave_is_broadcast_witness :
  outputs (handleMessage entropy0 (SignalingLeaveRoom "b") 2
             (run a_and_b_in_room initial).1)
  = [Send 1 (SignalingPeerList "" "" ["a"] "AB12" "room-1")].
Proof.
  rewrite (leave_is_broadcast entropy0 "b" {| socket := 2; roomId := Some "room-1" |}
             "room-1" "AB12" ["a"; "b"]); [vm_compute; reflexivity|..];
    try (vm_compute; reflexivity).
  vm_compute. discriminate.
Defined.

(** ** Frames *)

Lemma foldl_byteLength {wire : Type} (byteLength : wire -> Z) bs acc :
  foldl (fun sum b => sum + byteLength b) acc bs
  = acc + foldr Z.add 0 (byteLength <$> bs).
Proof.
  revert acc. induction bs as [|b bs IH]; intros acc; cbn; [lia|].
  rewrite IH. lia.
Qed.

Lemma checkMessageSize_run {wire : Type} (byteLength : wire -> Z) buffer sock s :
  checkMessageSize byteLength buffer sock s
  = if foldr Z.add 0 (chunk_sizes byteLength buffer) >? MaxMessageSize
    then (Normal false, s, [Close sock 1009 "Message too large"])
    else (Normal true, s, []).
Proof.
  unfold checkMessageSize, chunk_sizes.
  destruct buffer as [b|bs]; cbn [chunks fmap list_fmap foldr].
  - rewrite Z.add_0_r. by destruct (_ >? _).
  - rewrite foldl_byteLength, Z.add_0_l. by destruct (_ >? _).
Qed.

Section Frames.
Context {wire : Type}.
Variable JSON_parse : wire -> option SignalingContent.
Variable byteLength : wire -> Z.

(** X14.  A frame whose buffers add up to more than [MaxMessageSize] bytes
    is answered by closing the socket with code 1009, whatever it holds and
    whatever [JSON.parse] would make of it: no map changes. *)
Theorem oversize_frame_is_not_parsed entropy buffer sock s :
  MaxMessageSize < foldr Z.add 0 (chunk_sizes byteLength buffer) ->
  processFrame JSON_parse byteLength entropy buffer sock s
  = (Normal tt, s, [Close sock 1009 "Message too large"]).
Proof.
  intros Hbig. unfold processFrame, mbind, M_bind. rewrite checkMessageSize_run.
  by destruct (Z.gtb_spec (foldr Z.add 0 (chunk_sizes byteLength buffer)) MaxMessageSize);
    [|lia].
Qed.

Lemma bad_buffer_fails bs :
  Exists (fun b => exists e, fromJson JSON_parse b = inl e) bs ->
  exists e, fromBuffers JSON_parse bs = inl e.
Proof.
  induction 1 as [b bs [e He] | b bs _ [e IH]]; cbn.
  - rewrite He. eauto.
  - destruct (fromJson JSON_parse b); [eauto|]. rewrite IH. eauto.
Qed.

(** X15.  A frame within the size limit in which some buffer does not
    decode is answered by closing the socket with [INVALID_MESSAGE], and
    none of its messages is dispatched, not even those of the buffers that
    come before the bad one: no map changes. *)
Theorem bad_buffer_voids_frame entropy buffer sock s :
  foldr Z.add 0 (chunk_sizes byteLength buffer) <= MaxMessageSize ->
  Exists (fun b => exists e, fromJson JSON_parse b = inl e) (chunks buffer) ->
  processFrame JSON_parse byteLength entropy buffer sock s
  = (Normal tt, s, [Close sock CustomCloseCodes.INVALID_MESSAGE "Invalid message"]).
Proof.
  intros Hsmall Hbad. unfold processFrame, mbind, M_bind. rewrite checkMessageSize_run.
  destruct (Z.gtb_spec (foldr Z.add 0 (chunk_sizes byteLength buffer)) MaxMessageSize);
    [lia|].
  assert (exists e, parseMessage JSON_parse buffer = inl e) as [e ->]; [|done].
  destruct buffer as [b|bs]; cbn in *.
  - apply Exists_cons in Hbad as [[e He]|[]%Exists_nil]. rewrite He. eauto.
  - by apply bad_buffer_fails.
Qed.
End Frames.

Lemma oversize_frame_is_not_parsed_witness :
  processFrame Some (fun _ : SignalingContent => 6000) (fun _ => entropy0)
    (Buffers [create_with_target; create_with_target]) 1 initial
  = (Normal tt, initial, [Close 1 1009 "Message too large"]).
Proof. apply oversize_frame_is_not_parsed. vm_compute; reflexivity. Defined.

Lemma bad_buffer_voids_frame_witness :
  processFrame Some (fun _ : SignalingContent => 100) (fun _ => entropy0)
    (Buffers [create_with_target; untyped_content]) 1 (run a_and_b_in_room initial).1
  = (Normal tt, (run a_and_b_in_room initial).1, [Close 1 4002 "Invalid message"]).
Proof.
  apply bad_buffer_voids_frame.
  - vm_compute; discriminate.
  - apply Exists_cons_tl, Exists_cons_hd. eexists. reflexivity.
Defined.

(** ** Admission *)

(** X16.  A connection attempt that is refused, for want of an address or
    because of the count of its address, closes the socket and leaves every
    map as it was: the client is not registered and the address is not
    counted. *)
Theorem refused_connection_leaves_no_trace sock ip clientId s :
  completion (onConnection sock ip clientId s) = Normal false ->
  state (onConnection sock ip clientId s) = s
  /\ exists code reason, outputs (onConnection sock ip clientId s) = [Close sock code reason].
Proof.
  unfold onConnection, mbind, M_bind. destruct ip as [ip|].
  - destruct (Z.le_gt_cases (default 0 (connectionCounts s !! ip)) MaxConnectionsPerIp).
    + by rewrite checkConnectionCount_admits.
    + rewrite checkConnectionCount_rejects by lia. cbn. eauto.
  - cbn. eauto.
Qed.

Lemma refused_connection_leaves_no_trace_witness :
  state (onConnection 1 None "a" initial) = initial
  /\ exists code reason, outputs (onConnection 1 None "a" initial) = [Close 1 code reason].
Proof. apply refused_connection_leaves_no_trace. reflexivity. Defined.

Lemma admitted_connection_state sock ip clientId s :
  default 0 (connectionCounts s !! ip) <= MaxConnectionsPerIp ->
  state (onConnection sock (Some ip) clientId s)
  = {| connectionCounts := <[ip := default 0 (connectionCounts s !! ip) + 1]> (connectionCounts s);
       clients := <[clientId := {| socket := sock; roomId := None |}]> (clients s);
       rooms := rooms s;
       roomCodeToId := roomCodeToId s;
       roomIdToCode := roomIdToCode s |}.
Proof.
  intros Hle. unfold onConnection, mbind, M_bind.
  by rewrite checkConnectionCount_admits.
Qed.

(** X17.  A connection attempt from an address with at most
    [MaxConnectionsPerIp] connections counted is admitted: the count of the
    address goes up by one, the client is registered under the new id with
    its socket and no room (replacing any client registered under that id),
    and the id is sent on the socket as a [ClientId] message. *)
Theorem admitted_connection_is_registered sock ip clientId s :
  default 0 (connectionCounts s !! ip) <= MaxConnectionsPerIp ->
  onConnection sock (Some ip) clientId s
  = (Normal true,
     {| connectionCounts := <[ip := default 0 (connectionCounts s !! ip) + 1]> (connectionCounts s);
        clients := <[clientId := {| socket := sock; roomId := None |}]> (clients s);
        rooms := rooms s;
        roomCodeToId := roomCodeToId s;
        roomIdToCode := roomIdToCode s |},
     [Send sock (SignalingClientId clientId "" clientId)]).
Proof.
  intros Hle. unfold onConnection, mbind, M_bind.
  by rewrite checkConnectionCount_admits.
Qed.

Lemma admitted_connection_is_registered_witness :
  outputs (onConnection 3 (Some address) "c" (run a_and_b_in_room initial).1)
  = [Send 3 (SignalingClientId "c" "" "c")].
Proof.
  rewrite admitted_connection_is_registered; [reflexivity|].
  vm_compute; discriminate.
Defined.

(** ** The rate gate, within one window *)

Lemma gate_frames_within times w :
  0 <= messageCount w <= MaxMessagesPerSeconds + 1 ->
  Forall (fun now => now <= resetAt w) times ->
  let room := Z.to_nat (MaxMessagesPerSeconds + 1 - messageCount w) in
  gate_frames times w
  = replicate (length times `min` room) true ++ replicate (length times - room) false.
Proof.
  unfold MaxMessagesPerSeconds. revert w.
  induction times as [|now rest IH]; intros w Hc Hall; [done|].
  apply Forall_cons in Hall as [Hnow Hrest]. cbn [gate_frames length].
  rewrite rateGate_within by done. unfold MaxMessagesPerSeconds.
  destruct (Z.gtb_spec (messageCount w) 20).
  - rewrite IH by (done || lia).
    replace (Z.to_nat (20 + 1 - messageCount w)) with 0%nat by lia.
    rewrite !Nat.min_0_r, !Nat.sub_0_r. done.
  - rewrite IH by (cbn; (done || lia)). cbn [messageCount].
    replace (Z.to_nat (20 + 1 - messageCount w))
      with (S (Z.to_nat (20 + 1 - (messageCount w + 1)))) by lia.
    done.
Qed.

(** X18.  Of the frames a connection sends before its first window
    expires, the first [MaxMessagesPerSeconds + 1] pass the gate and all
    the later ones are refused. *)
Theorem first_window_admits_21 t0 times :
  Forall (fun now => now <= t0 + 1000) times ->
  gate_frames times (opened_at t0)
  = replicate (length times `min` 21) true ++ replicate (length times - 21) false.
Proof. intros Hall. by rewrite gate_frames_within. Qed.

Lemma first_window_admits_21_witness :
  gate_frames (seqZ 1 25) (opened_at 0) = replicate 21 true ++ replicate 4 false.
Proof.
  apply (first_window_admits_21 0 (seqZ 1 25)).
  apply Forall_forall. intros now Hnow%elem_of_seqZ. lia.
Defined.

(** X19.  The gate refuses a frame exactly when the frame arrives before
    the window's expiry and the count is already above
    [MaxMessagesPerSeconds]; a refused frame leaves the count and the
    expiry as they were, so the connection is refused until the clock
    passes the expiry. *)
Theorem rateGate_refusal now w :
  ((rateGate now w).2 = false <->
   now <= resetAt w /\ MaxMessagesPerSeconds < messageCount w)
  /\ ((rateGate now w).2 = false -> (rateGate now w).1 = w).
Proof.
  unfold rateGate, MaxMessagesPerSeconds.
  destruct (Z.gtb_spec now (resetAt w)); cbn.
  - split; [split; [done | lia] | done].
  - destruct (Z.gtb_spec (messageCount w) 20); cbn.
    + split; [split; [lia | done] | done].
    + split; [split; [done | lia] | done].
Qed.

(** ** Admission accounting *)

Lemma effect_frame s message s' :
  Effect s message s' ->
  connectionCounts s' = connectionCounts s
  /\ forall x, is_Some (clients s' !! x) <-> is_Some (clients s !! x).
Proof.
  intros [| id code _ | id peers _ _ | roomCode room _ _]; cbn.
  - done.
  - split; [done|]. intros x. rewrite lookup_alter. case_decide; [|done].
    subst. by rewrite fmap_is_Some.
  - split; [done|]. intros x. rewrite lookup_alter. case_decide; [|done].
    subst. by rewrite fmap_is_Some.
  - unfold after_leaveRoom. by case_bool_decide.
Qed.

Lemma perform_connect_state sock ip clientId s :
  state (perform (Connect sock ip clientId) s) = state (onConnection sock ip clientId s).
Proof.
  cbn. unfold mbind, M_bind, state.
  by destruct (onConnection sock ip clientId s) as [[[?|?] ?] ?].
Qed.

Lemma rejected_connection_state sock ip clientId s :
  MaxConnectionsPerIp < default 0 (connectionCounts s !! ip) ->
  state (onConnection sock (Some ip) clientId s) = s.
Proof.
  intros Hgt. unfold onConnection, mbind, M_bind.
  by rewrite checkConnectionCount_rejects.
Qed.

Lemma counts_in_bounds_perform op s :
  counts_in_bounds s -> counts_in_bounds (state (perform op s)).
Proof.
  unfold counts_in_bounds, MaxConnectionsPerIp. intros Hs.
  assert (forall ip, 0 <= default 0 (connectionCounts s !! ip) <= 11) as Hdef.
  { intros ip. destruct (connectionCounts s !! ip) as [c|] eqn:E; cbn; [|lia].
    apply Hs in E. lia. }
  destruct op as [sock [ip|] cid|entropy message sock|cid [ip|]];
    rewrite ?perform_connect_state; cbn [perform].
  - destruct (Z.le_gt_cases (default 0 (connectionCounts s !! ip)) MaxConnectionsPerIp).
    + rewrite admitted_connection_state by done. cbn.
      apply map_Forall_insert_2; [|done]. unfold MaxConnectionsPerIp in *.
      specialize (Hdef ip). lia.
    + by rewrite rejected_connection_state by lia.
  - done.
  - destruct (effect_frame _ _ _ (handleMessage_effect entropy message sock s)) as [-> _].
    done.
  - rewrite removeClient_run. cbn.
    destruct (Z.leb_spec (default 0 (connectionCounts s !! ip) - 1) 0).
    + by apply map_Forall_delete.
    + apply map_Forall_insert_2; [|done]. specialize (Hdef ip). lia.
  - done.
Qed.

(** X20.  After any sequence of operations from the empty server, an
    address that is counted at all is counted between 1 and
    [MaxConnectionsPerIp + 1] times: an entry that would reach zero is
    removed, and no address is ever counted above eleven. *)
Theorem address_counts_in_bounds ops ip count :
  connectionCounts (run ops initial).1 !! ip = Some count ->
  1 <= count <= MaxConnectionsPerIp + 1.
Proof.
  assert (forall s, counts_in_bounds s -> counts_in_bounds (run ops s).1) as Hrun.
  { induction ops as [|op rest IH]; intros s Hs; cbn [run]; [done|].
    specialize (IH _ (counts_in_bounds_perform op s Hs)).
    by destruct (run rest (state (perform op s))). }
  intros Hl. by apply (Hrun initial (map_Forall_empty _) ip count).
Qed.

Lemma address_counts_in_bounds_witness : 1 <= 10 <= MaxConnectionsPerIp + 1.
Proof.
  apply (address_counts_in_bounds (connections_from address 0 10) address).
  vm_compute; reflexivity.
Defined.

Lemma toDelete_nil (m : gmap string (list string)) :
  map_Forall (fun _ room => room <> []) m -> toDelete m = [].
Proof.
  intros Hne. apply elem_of_nil_inv. intros k Hk%elem_of_toDelete.
  by apply Hne in Hk.
Qed.

Lemma remove_from_room_absent clientId room :
  clientId ∉ room -> remove_from_room clientId room = room.
Proof.
  intros Hx%indexOf_absent. unfold remove_from_room. by rewrite Hx.
Qed.

(** X21.  Admitting a connection under a fresh id and then cleaning up
    after it, with the same address, gives back the state before the
    connection, provided no room was empty and no room listed the id. *)
Theorem connect_then_disconnect_restores sock ip clientId s :
  (forall count, connectionCounts s !! ip = Some count ->
                 1 <= count <= MaxConnectionsPerIp) ->
  clients s !! clientId = None ->
  rooms_nonempty s ->
  in_some_room s clientId = false ->
  state (removeClient clientId (Some ip) (state (onConnection sock (Some ip) clientId s)))
  = s.
Proof.
  intros Hcount Hfresh Hne Hout. unfold MaxConnectionsPerIp in Hcount.
  rewrite admitted_connection_state, removeClient_run.
  2:{ unfold MaxConnectionsPerIp.
      destruct (connectionCounts s !! ip) as [c|]; cbn;
        [specialize (Hcount c eq_refl)|]; lia. }
  unfold after_removeClient. cbn. destruct s as [counts cl rs c2i i2c]. cbn in *.
  assert (remove_from_room clientId <$> rs = rs) as ->.
  { apply map_eq. intros k. rewrite lookup_fmap.
    destruct (rs !! k) as [room|] eqn:E; cbn; [|done].
    f_equal. apply remove_from_room_absent. by eapply (in_some_room_false _ _ Hout). }
  rewrite toDelete_nil by done. cbn. rewrite lookup_insert_eq. cbn.
  f_equal; [|by apply delete_insert_id].
  destruct (counts !! ip) as [c|] eqn:E; cbn.
  - specialize (Hcount c eq_refl). destruct (Z.leb_spec (c + 1 - 1) 0); [lia|].
    rewrite insert_insert_eq. apply insert_id. rewrite E. f_equal. lia.
  - cbn. by apply delete_insert_id.
Qed.

Lemma connect_then_disconnect_restores_witness :
  state (removeClient "c" (Some address)
           (state (onConnection 3 (Some address) "c" (run a_and_b_in_room initial).1)))
  = (run a_and_b_in_room initial).1.
Proof.
  apply connect_then_disconnect_restores.
  - intros count.
    replace (connectionCounts (run a_and_b_in_room initial).1 !! address) with (Some 2)
      by (vm_compute; reflexivity).
    intros [= <-]. unfold MaxConnectionsPerIp. lia.
  - vm_compute; reflexivity.
  - apply rooms_nonempty_run, map_Forall_empty.
  - vm_compute; reflexivity.
Defined.

(** ** Disconnect cleanup *)

Lemma remove_from_room_spec clientId room :
  NoDup room ->
  (clientId ∉ remove_from_room clientId room)
  /\ (forall x, x ∈ room -> x <> clientId -> x ∈ remove_from_room clientId room).
Proof.
  intros Hnd. destruct (decide (clientId ∈ room)) as [Hin|Hout].
  2:{ by rewrite remove_from_room_absent. }
  rewrite remove_from_room_member by done.
  destruct (indexOf_present _ _ Hin) as [_ Hi].
  apply list_elem_of_split_length in Hi as (l1 & l2 & -> & ->).
  rewrite delete_middle.
  apply NoDup_app in Hnd as (_ & Hleft & [Hright _]%NoDup_cons).
  split.
  - intros [H1|H2]%elem_of_app; [|done]. apply (Hleft _ H1). by left.
  - intros x [H1|[->|H2]%elem_of_cons]%elem_of_app Hne;
      [apply elem_of_app; by left | done | apply elem_of_app; by right].
Qed.

(** What [removeClient] leaves of each room. *)
Lemma after_removeClient_rooms clientId ip s rid :
  (forall room, rooms s !! rid = Some room -> NoDup room) ->
  match rooms s !! rid, rooms (after_removeClient clientId ip s) !! rid with
  | Some room, Some room' =>
      (clientId ∉ room') /\ sublist room' room
      /\ forall x, x ∈ room -> x <> clientId -> x ∈ room'
  | Some room, None => forall x, x ∈ room -> x = clientId
  | None, Some _ => False
  | None, None => True
  end.
Proof.
  intros Hnd. cbn [after_removeClient rooms].
  set (pruned := remove_from_room clientId <$> rooms s).
  assert (pruned !! rid = remove_from_room clientId <$> rooms s !! rid) as Hp
    by apply lookup_fmap.
  destruct (rooms s !! rid) as [room|]; cbn in Hp.
  - destruct (remove_from_room_spec clientId room (Hnd _ eq_refl)) as [Hout Hkeep].
    destruct (foldr delete pruned (toDelete pruned) !! rid) as [room'|] eqn:E.
    + apply lookup_close_empty in E as [E _]. rewrite Hp in E. injection E as <-.
      split_and!; [done | apply remove_from_room_sublist | done].
    + intros x Hx. destruct (decide (x = clientId)) as [|Hne]; [done|].
      specialize (Hkeep x Hx Hne).
      assert (foldr delete pruned (toDelete pruned) !! rid
              = Some (remove_from_room clientId room)) as E'.
      { apply lookup_close_empty. split; [done|]. by eapply elem_of_not_nil. }
      congruence.
  - destruct (foldr delete pruned (toDelete pruned) !! rid) as [room'|] eqn:E; [|done].
    apply lookup_close_empty in E as [E _]. congruence.
Qed.


(** ** Members are registered clients *)

Lemma handleMessage_unregistered entropy message sock s :
  clients s !! senderId message = None ->
  handleMessage entropy message sock s = (Normal tt, s, []).
Proof. intros H. unfold handleMessage. by rewrite gets_bind, H. Qed.

Lemma members_registered_effect s message s' :
  is_Some (clients s !! senderId message) ->
  members_registered s -> Effect s message s' -> members_registered s'.
Proof.
  intros Hsender Hs He. pose proof (effect_frame _ _ _ He) as [_ Hcl].
  intros rid room x Hl Hx. apply Hcl. clear Hcl.
  destruct He as [| id code _ | id peers _ Hp | roomCode room0 _ Hr]; cbn in Hl.
  - eauto.
  - rewrite lookup_insert in Hl. case_decide.
    + injection Hl as <-. by apply list_elem_of_singleton in Hx as ->.
    + eauto.
  - rewrite lookup_insert in Hl. case_decide.
    + injection Hl as <-. apply elem_of_app in Hx as [Hx | ->%list_elem_of_singleton];
        [by eapply (Hs id) | done].
    + eauto.
  - unfold after_leaveRoom in Hl. case_bool_decide; cbn in Hl.
    + apply lookup_delete_Some in Hl as [_ Hl]. eauto.
    + rewrite lookup_insert in Hl. case_decide; [|by eauto].
      injection Hl as <-.
      eapply Hs; [exact Hr|]. eapply elem_of_sublist; [done|apply splice_sublist].
Qed.

Lemma members_registered_perform op s :
  members_unique s -> members_registered s -> allowed s op = true ->
  members_registered (state (perform op s)).
Proof.
  intros Hu Hs Hop.
  destruct op as [sock [ip|] cid|entropy message sock|cid [ip|]];
    rewrite ?perform_connect_state; cbn [perform]; try done.
  - destruct (Z.le_gt_cases (default 0 (connectionCounts s !! ip)) MaxConnectionsPerIp).
    + rewrite admitted_connection_state by done. intros rid room x Hl Hx. cbn in *.
      rewrite lookup_insert. case_decide; [done | by eapply Hs].
    + by rewrite rejected_connection_state by lia.
  - destruct (clients s !! senderId message) as [c|] eqn:Hc.
    + eapply members_registered_effect; [by rewrite Hc | done | apply handleMessage_effect].
    + by rewrite handleMessage_unregistered.
  - rewrite removeClient_run. intros rid room' x Hl Hx. cbn [state fst snd] in Hl |- *.
    pose proof (after_removeClient_rooms cid ip s rid) as Hrooms.
    rewrite Hl in Hrooms. destruct Hu as [Hnd _].
    destruct (rooms s !! rid) as [room|] eqn:Hr; [|by destruct Hrooms].
    destruct Hrooms as (Hout & Hsub & _); [intros ? [= <-]; by eapply Hnd|].
    cbn. rewrite lookup_delete_ne by (by intros ->).
    eapply Hs; [done|]. by eapply elem_of_sublist.
Qed.

Lemma disciplined_invariants ops s :
  members_unique s -> members_registered s -> disciplined ops s = true ->
  members_unique (run ops s).1 /\ members_registered (run ops s).1.
Proof.
  revert s. induction ops as [|op rest IH]; intros s Hu Hr Hd; cbn [run]; [done|].
  cbn [disciplined] in Hd. apply andb_true_iff in Hd as [Hop Hd].
  specialize (IH _ (members_unique_perform op s Hu Hop)
                 (members_registered_perform op s Hu Hr Hop) Hd).
  by destruct (run rest (state (perform op s))).
Qed.


(** X23.  In every state reached from the empty server by a sequence of
    operations in which create, join and join-or-create are only sent for a
    sender that no room lists at that moment, every id that a room lists is
    the id of a registered client, so that a peer-list broadcast reaches
    every member of the room. *)
Theorem members_are_registered ops :
  disciplined ops initial = true -> members_registered (run ops initial).1.
Proof.
  intros Hd. apply disciplined_invariants; [| |done].
  - split; intros *; cbn; by rewrite lookup_empty.
  - intros ? ? ?; cbn; by rewrite lookup_empty.
Qed.

Lemma members_are_registered_witness : members_registered (run come_and_go initial).1.
Proof. apply members_are_registered. vm_compute; reflexivity. Defined.



(** ** Rooms and codes *)

Lemma rooms_have_codes_effect s message s' :
  rooms_have_codes s -> Effect s message s' -> rooms_have_codes s'.
Proof.
  intros Hs [| id code _ | id peers _ Hp | roomCode room _ Hr] rid; cbn.
  - apply Hs.
  - rewrite !lookup_insert. case_decide; [eauto | apply Hs].
  - rewrite lookup_insert. case_decide as Hid; [|apply Hs].
    intros _. subst. apply Hs. eauto.
  - unfold after_leaveRoom. case_bool_decide; cbn.
    + intros [room' [_ Hl]%lookup_delete_Some]. apply Hs. eauto.
    + rewrite lookup_insert. case_decide as Hid; [|apply Hs].
      intros _. subst. apply Hs. eauto.
Qed.

Lemma rooms_have_codes_perform op s :
  rooms_have_codes s -> rooms_have_codes (state (perform op s)).
Proof.
  intros Hs.
  destruct op as [sock ip cid|entropy message sock|cid [ip|]];
    rewrite ?perform_connect_state; cbn [perform]; try done.
  - destruct (onConnection_rooms sock ip cid s) as (Hr & _ & Hc). cbn zeta in Hr, Hc.
    intros rid. rewrite Hr, Hc. apply Hs.
  - eapply rooms_have_codes_effect; [done | apply handleMessage_effect].
  - rewrite removeClient_run. intros rid [room' [Hl _]%lookup_close_empty]. cbn.
    apply Hs. rewrite lookup_fmap in Hl.
    destruct (rooms s !! rid); [eauto | done].
Qed.

(** X24.  After any sequence of operations from the empty server, every
    room that exists has a code recorded for its id, so a peer-list
    broadcast for an existing room is never dropped for want of a code. *)
Theorem every_room_has_a_code ops rid :
  is_Some (rooms (run ops initial).1 !! rid) ->
  is_Some (roomIdToCode (run ops initial).1 !! rid).
Proof.
  assert (forall s, rooms_have_codes s -> rooms_have_codes (run ops s).1) as Hrun.
  { induction ops as [|op rest IH]; intros s Hs; cbn [run]; [done|].
    specialize (IH _ (rooms_have_codes_perform op s Hs)).
    by destruct (run rest (state (perform op s))). }
  apply Hrun. intros k. cbn. rewrite lookup_empty. by intros [? ?].
Qed.

Lemma every_room_has_a_code_witness :
  is_Some (roomIdToCode (run a_and_b_in_room initial).1 !! "room-1").
Proof.
  apply (every_room_has_a_code a_and_b_in_room "room-1").
  vm_compute. eexists; reflexivity.
Defined.

(** X25.  A code that [roomCodeToId] holds stays held through every later
    operation, whatever happens to its room: every later [createRoom] with
    that code is answered with the "already exists" error and creates
    nothing. *)
Theorem taken_code_stays_taken ops s roomCode id senderId sock :
  is_Some (roomCodeToId s !! roomCode) ->
  createRoom id senderId roomCode sock (run ops s).1
  = (Normal tt, (run ops s).1, [Send sock (roomAlreadyExists roomCode senderId)]).
Proof.
  intros Htaken. apply createRoom_taken. revert s Htaken.
  induction ops as [|op rest IH]; intros s [id0 Hid0]; cbn [run]; [by eexists|].
  destruct (mappings_kept op s roomCode id0) as [Hkept _].
  specialize (IH _ (Hkept Hid0)).
  by destruct (run rest (state (perform op s))).
Qed.

Lemma taken_code_stays_taken_witness :
  createRoom "room-2" "b" "AB12" 2
    (run [Dispatch entropy0 (SignalingLeaveRoom "a") 1; Connect 2 (Some address) "b"]
         (run a_alone_in_room initial).1).1
  = (Normal tt,
     (run [Dispatch entropy0 (SignalingLeaveRoom "a") 1; Connect 2 (Some address) "b"]
          (run a_alone_in_room initial).1).1,
     [Send 2 (SignalingError "b" "Room AB12 already exists.")]).
Proof.
  apply (taken_code_stays_taken
           [Dispatch entropy0 (SignalingLeaveRoom "a") 1; Connect 2 (Some address) "b"]).
  vm_compute. eexists; reflexivity.
Defined.

Lemma gate_frames_spaced_witness :
  gate_frames [1001; 1002; 1003] (opened_at 0) = [true; true; true].
Proof.
  apply (gate_frames_spaced [1001; 1002; 1003] (opened_at 0)).
  repeat (constructor; [|repeat constructor; cbn; lia]). constructor.
Defined.
